(** * etl-poweroutages: the scheduled task of [task.ts]

    [Task.control] reads its configuration, builds the request URL, fetches
    the power-outage report, turns every outage of the report into a point
    feature and submits the collection.  The development embeds that method:
    JavaScript values and the runtime's library functions first, then the
    data model of the source, then [control] itself in a small monad that
    records the console, the network call and the submission. *)

From Stdlib Require Import ZArith List String Ascii Bool Lia.
From Stdlib Require Import Floats.SpecFloat.
Import ListNotations.
Local Open Scope string_scope.
Local Open Scope bool_scope.

(** ** JavaScript values *)

Module Js.

(** A JavaScript number is an IEEE 754 binary64 value. *)
Definition number : Type := spec_float.
Definition prec : Z := 53.
Definition emax : Z := 1024.

(** The number nearest to an integer (exact below 2^53). *)
Definition of_Z (z : Z) : number := binary_normalize prec emax z 0 false.

Definition zero : number := S754_zero false.

Definition isNaN (x : number) : bool :=
  match x with S754_nan => true | _ => false end.

(** [x < y] and [x >= y]; both are false as soon as an operand is NaN. *)
Definition ltb (x y : number) : bool := SFltb x y.
Definition geb (x y : number) : bool := SFleb y x.

(** ToBoolean of a value of type [string | undefined]: [undefined] and the
    empty string are falsy, every other string is truthy. *)
Definition truthy (v : option string) : bool :=
  match v with
  | Some (String _ _) => true
  | _ => false
  end.

(** [v ? yes(v) : no] for a value of type [string | undefined]. *)
Definition if_truthy {A : Type} (v : option string) (yes : string -> A) (no : A) : A :=
  match v with
  | Some (String c s) => yes (String c s)
  | _ => no
  end.

(** [Array.prototype.join] on an array of strings. *)
Definition join (sep : string) (xs : list string) : string := String.concat sep xs.

(** The line feed of the literal ['\n']. *)
Definition LF : string := String "010"%char EmptyString.

(** [a.split(sep)] for a separator of one character. *)
Fixpoint split (sep : ascii) (s : string) : list string :=
  match s with
  | EmptyString => [EmptyString]
  | String c rest =>
      if Ascii.eqb c sep then EmptyString :: split sep rest
      else match split sep rest with
           | [] => [String c EmptyString]
           | l :: ls => String c l :: ls
           end
  end.

(** Whether a character occurs in a string. *)
Fixpoint occurs (c : ascii) (s : string) : bool :=
  match s with
  | EmptyString => false
  | String d rest => Ascii.eqb d c || occurs c rest
  end.

End Js.

(** ** The runtime

    Library functions of the JavaScript runtime that [control] calls and that
    are no part of the repository.  Dates are represented by their time value
    in milliseconds since the epoch, [None] being the invalid date. *)

Record Runtime : Type := {
  (** [Number(s)] *)
  Number : string -> Js.number;
  (** [n.toString()], also the rendering of [n] in a template literal *)
  Number_toString : Js.number -> string;
  (** the time value of [new Date(s)] *)
  Date_parse : string -> option Z;
  (** [d.toISOString()] for a valid date [d] *)
  Date_toISOString : Z -> string;
  (** [d.toLocaleString('en-NZ', { timeZone: 'Pacific/Auckland' })] *)
  Date_toLocaleString : option Z -> string
}.

(** TimeClip: [new Date(v)] for a number [v] is valid up to 8.64e15 ms. *)
Definition Date_of_ms (v : Z) : option Z :=
  if (Z.abs v <=? 8640000000000000)%Z then Some v else None.

(** ** The data model of the source *)

Record Env : Type := {
  API_URL : string;
  Min_Customers : string;
  Utility_Filter : option string;
  Outage_Type : option string
}.

Module Utility.
Record t : Type := { name : string; id : string }.
End Utility.

Record Coordinates : Type := { latitude : Js.number; longitude : Js.number }.

Record Location : Type := {
  coordinates : Coordinates;
  areas : list string;
  streets : list string
}.

Record OutageMetadata : Type := {
  feeder : option string;
  lastUpdate : option string;
  aggregationType : option string;
  outageCount : option Js.number
}.

(** [interface PowerOutage] *)
Record PowerOutage : Type := {
  outageId : string;
  utility : Utility.t;
  region : string;
  regionCode : string;
  outageStart : string;
  estimatedRestoration : option string;
  cause : string;
  status : string;
  outageType : option string;
  customersAffected : Js.number;
  crewStatus : option string;
  location : Location;
  metadata : option OutageMetadata
}.

Record Summary : Type := {
  totalUtilities : Js.number;
  totalOutages : Js.number;
  totalCustomersAffected : Js.number
}.

Module UtilityStatus.
Record t : Type := {
  name : string;
  id : string;
  status : string;
  outageCount : Js.number
}.
End UtilityStatus.

(** [interface PowerOutagesResponse] *)
Record PowerOutagesResponse : Type := {
  version : string;
  timestamp : string;
  summary : Summary;
  utilities : list UtilityStatus.t;
  outages : list PowerOutage
}.

(** The objects pushed onto [features] and the collection handed to [submit]. *)

Module Geometry.
Record t : Type := { type : string; coordinates : list Js.number }.
End Geometry.

Module Properties.
Record t : Type := {
  callsign : string;
  type : string;
  icon : string;
  time : string;
  start : string;
  stale : string;
  metadata : PowerOutage;
  remarks : string
}.
End Properties.

Module Feature.
Record t : Type := {
  id : string;
  type : string;
  properties : Properties.t;
  geometry : Geometry.t
}.
End Feature.

Module FeatureCollection.
Record t : Type := { type : string; features : list Feature.t }.
End FeatureCollection.

(** ** URLSearchParams

    The parameters are kept in the order of the [append] calls; [toString] is
    the application/x-www-form-urlencoded serializer of the URL standard.
    Strings are taken as their UTF-8 bytes, which is what the serializer
    percent-encodes. *)

Module URLSearchParams.

Definition t : Type := list (string * string).

Definition empty : t := [].

Definition append (params : t) (name value : string) : t := (params ++ [(name, value)])%list.

Definition hex_digit (n : N) : ascii :=
  if (n <? 10)%N then ascii_of_N (48 + n) else ascii_of_N (55 + n).

(** Bytes the serializer leaves as they are: ASCII alphanumerics and [*-._]. *)
Definition unreserved (c : ascii) : bool :=
  let n := N_of_ascii c in
  ((48 <=? n) && (n <=? 57) || (65 <=? n) && (n <=? 90) || (97 <=? n) && (n <=? 122)
   || (n =? 42) || (n =? 45) || (n =? 46) || (n =? 95))%N.

Definition encode_byte (c : ascii) : string :=
  if Ascii.eqb c " " then "+"
  else if unreserved c then String c EmptyString
  else
    let n := N_of_ascii c in
    String "%" (String (hex_digit (n / 16)) (String (hex_digit (n mod 16)) EmptyString)).

Fixpoint encode (s : string) : string :=
  match s with
  | EmptyString => EmptyString
  | String c rest => encode_byte c ++ encode rest
  end.

Definition toString (params : t) : string :=
  String.concat "&" (map (fun p => encode (fst p) ++ "=" ++ encode (snd p)) params).

End URLSearchParams.

(** ** Effects

    What a run does to the outside is recorded as a trace, in the order of
    the calls.  The network, the clock and the submission sink answer as the
    [World] says. *)

Inductive collaborator : Type := TheFetch | TheBody | TheSink.

(** What can be thrown inside [control]: the task's own [new Error(...)], the
    [RangeError] of [toISOString] on an invalid date, and the rejection of a
    promise by [fetch], [res.json()] or [submit]. *)
Inductive exn : Type :=
| Error (message : string)
| RangeError (message : string)
| Rejected (who : collaborator) (message : string).

Definition message (e : exn) : string :=
  match e with
  | Error m | RangeError m | Rejected _ m => m
  end.

(** The response of [fetch], as far as [control] looks at it. *)
Module Response.
Record t : Type := {
  ok : bool;
  status : Js.number;
  statusText : string;
  (** what [res.json()] resolves to, or the reason it rejects with *)
  json : string + PowerOutagesResponse
}.
End Response.

Record World : Type := {
  (** what [fetch(url)] resolves to, or the reason it rejects with *)
  fetch : string -> string + Response.t;
  (** the reading of the k-th call of [Date.now()] *)
  Date_now : nat -> Z;
  (** [None] when [submit] resolves, the reason when it rejects *)
  submit : FeatureCollection.t -> option string
}.

Inductive event : Type :=
| Log (line : string)                     (* console.log *)
| LogError (line : string)                (* console.error *)
| Fetched (url : string)                  (* the GET request *)
| Submitted (fc : FeatureCollection.t).   (* this.submit *)

Record state : Type := { trace : list event; ticks : nat }.

Definition M (A : Type) : Type := state -> (exn + A) * state.

Definition ret {A : Type} (x : A) : M A := fun s => (inr x, s).

Definition throw {A : Type} (e : exn) : M A := fun s => (inl e, s).

Definition bind {A B : Type} (c : M A) (k : A -> M B) : M B :=
  fun s =>
    match c s with
    | (inr x, s') => k x s'
    | (inl e, s') => (inl e, s')
    end.

Definition try_catch {A : Type} (c : M A) (handler : exn -> M A) : M A :=
  fun s =>
    match c s with
    | (inr x, s') => (inr x, s')
    | (inl e, s') => handler e s'
    end.

Definition emit (e : event) : M unit :=
  fun s => (inr tt, {| trace := (trace s ++ [e])%list; ticks := ticks s |}).

Declare Scope task_scope.
Delimit Scope task_scope with task.
Notation "x <- c ;; k" := (bind c (fun x => k))
  (at level 61, c at next level, right associativity) : task_scope.
Notation "c ;; k" := (bind c (fun _ => k))
  (at level 61, right associativity) : task_scope.
Local Open Scope task_scope.

Definition initial : state := {| trace := []; ticks := 0 |}.

(** ** The task *)

Section Task.

Variable rt : Runtime.
Variable w : World.

(** [Task.ICON] *)
Definition ICON : string :=
  "bb4df0a6-ca8d-4ba8-bb9e-3deb97ff015e:Incidents/INC.04.PowerOutage".

(** *** Calls into the outside *)

Definition console_log (line : string) : M unit := emit (Log line).

Definition console_error (line : string) : M unit := emit (LogError line).

(** [Date.now()]: every call takes the next reading of the clock. *)
Definition now : M Z :=
  fun s => (inr (Date_now w (ticks s)), {| trace := trace s; ticks := S (ticks s) |}).

(** [await fetch(url)] *)
Definition await_fetch (url : string) : M Response.t :=
  emit (Fetched url) ;;
  match fetch w url with
  | inr res => ret res
  | inl reason => throw (Rejected TheFetch reason)
  end.

(** [await res.json()] *)
Definition await_json (res : Response.t) : M PowerOutagesResponse :=
  match Response.json res with
  | inr body => ret body
  | inl reason => throw (Rejected TheBody reason)
  end.

(** [await this.submit(fc)] *)
Definition await_submit (fc : FeatureCollection.t) : M unit :=
  emit (Submitted fc) ;;
  match submit w fc with
  | None => ret tt
  | Some reason => throw (Rejected TheSink reason)
  end.

(** [d.toISOString()], which throws on the invalid date. *)
Definition toISOString (d : option Z) : M string :=
  match d with
  | Some t => ret (Date_toISOString rt t)
  | None => throw (RangeError "Invalid time value")
  end.

(** *** The request (lines 132 to 147) *)

Definition request_params (env : Env) (minCustomers : Js.number) : URLSearchParams.t :=
  let params := URLSearchParams.empty in
  let params :=
    if Js.ltb Js.zero minCustomers
    then URLSearchParams.append params "minCustomers" (Number_toString rt minCustomers)
    else params in
  let params :=
    Js.if_truthy (Utility_Filter env)
      (fun v => URLSearchParams.append params "utility" v) params in
  let params :=
    Js.if_truthy (Outage_Type env)
      (fun v => URLSearchParams.append params "outageType" v) params in
  params.

Definition request_url (env : Env) (minCustomers : Js.number) : string :=
  let url := API_URL env in
  let params := request_params env minCustomers in
  Js.if_truthy (Some (URLSearchParams.toString params))
    (fun query => url ++ "?" ++ query) url.

(** *** One outage (lines 161 to 199) *)

(** [new Date(s).toLocaleString('en-NZ', { timeZone: 'Pacific/Auckland' })] *)
Definition local_time (s : string) : string :=
  Date_toLocaleString rt (Date_parse rt s).

(** [outage.metadata?.f] for a field [f] of the metadata *)
Definition metadata_field {A : Type} (f : OutageMetadata -> option A)
    (outage : PowerOutage) : option A :=
  match metadata outage with
  | Some m => f m
  | None => None
  end.

(** the rendering of a value of type [number | undefined] in a template literal *)
Definition render_count (n : option Js.number) : string :=
  match n with
  | Some v => Number_toString rt v
  | None => "undefined"
  end.

(** The array [remarks] of lines 164 to 178: the plain elements and the
    spread ones, in the order of the literal.  [areas] and [streets] are
    arrays by the interface, and an array is truthy even when it is empty:
    [areas?.join] is the join, and [streets && streets.length > 0] is the
    test on the length. *)
Definition remarks (outage : PowerOutage) : list string :=
  List.concat
    [ [ "Utility: " ++ Utility.name (utility outage);
        "Customers Affected: " ++ Number_toString rt (customersAffected outage);
        "Status: " ++ status outage;
        "Cause: " ++ cause outage;
        "Region: " ++ region outage;
        "Areas: " ++ Js.if_truthy (Some (Js.join ", " (areas (location outage))))
                       (fun joined => joined) "Unknown" ];
      match streets (location outage) with
      | [] => []
      | _ :: _ => [ "Streets: " ++ Js.join ", " (streets (location outage)) ]
      end;
      [ "Outage Start: " ++ local_time (outageStart outage) ++ " NZT" ];
      Js.if_truthy (estimatedRestoration outage)
        (fun er => [ "Estimated Restoration: " ++ local_time er ++ " NZT" ]) [];
      Js.if_truthy (outageType outage) (fun v => [ "Type: " ++ v ]) [];
      Js.if_truthy (crewStatus outage) (fun v => [ "Crew Status: " ++ v ]) [];
      Js.if_truthy (metadata_field feeder outage) (fun v => [ "Feeder: " ++ v ]) [];
      Js.if_truthy (metadata_field aggregationType outage)
        (fun _ => [ "Aggregated: " ++ render_count (metadata_field outageCount outage)
                      ++ " outages" ]) [] ].

(** [outage.location.areas?.[0] || outage.region] prefixed by the utility *)
Definition callsign (outage : PowerOutage) : string :=
  Utility.name (utility outage) ++ " - "
    ++ Js.if_truthy (hd_error (areas (location outage))) (fun area => area) (region outage).

(** The [stale] property (lines 189 to 191). *)
Definition stale (outage : PowerOutage) : M string :=
  Js.if_truthy (estimatedRestoration outage)
    (fun er => toISOString (Date_parse rt er))
    (t <- now ;; toISOString (Date_of_ms (t + 60 * 60 * 1000))).

(** The object pushed by one turn of the loop. *)
Definition feature (outage : PowerOutage) : M Feature.t :=
  let lon := longitude (coordinates (location outage)) in
  let lat := latitude (coordinates (location outage)) in
  let remarks := remarks outage in
  let id := "poweroutage-" ++ outageId outage in
  let callsign := callsign outage in
  time <- toISOString (Date_parse rt (outageStart outage)) ;;
  start <- toISOString (Date_parse rt (outageStart outage)) ;;
  stale <- stale outage ;;
  ret {| Feature.id := id;
         Feature.type := "Feature";
         Feature.properties :=
           {| Properties.callsign := callsign;
              Properties.type := "a-f-X-i";
              Properties.icon := ICON;
              Properties.time := time;
              Properties.start := start;
              Properties.stale := stale;
              Properties.metadata := outage;
              Properties.remarks := Js.join Js.LF remarks |};
         Feature.geometry :=
           {| Geometry.type := "Point"; Geometry.coordinates := [lon; lat] |} |}.

(** The loop of lines 160 to 200, [features] being the array built so far. *)
Fixpoint for_outages (outages : list PowerOutage) (features : list Feature.t)
    : M (list Feature.t) :=
  match outages with
  | [] => ret features
  | outage :: rest =>
      f <- feature outage ;;
      for_outages rest (features ++ [f])%list
  end.

(** *** [control] *)

Definition invalid_minimum (minCustomers : Js.number) : bool :=
  Js.isNaN minCustomers || Js.ltb minCustomers Js.zero.

(** The [try] block. *)
Definition control_try (env : Env) : M unit :=
  let minCustomers := Number rt (Min_Customers env) in
  if invalid_minimum minCustomers
  then throw (Error "Invalid minimum customers value")
  else
    let url := request_url env minCustomers in
    console_log ("ok - Fetching power outages from " ++ url) ;;
    res <- await_fetch url ;;
    if negb (Response.ok res)
    then throw (Error ("Failed to fetch data: " ++ Number_toString rt (Response.status res)
                         ++ " " ++ Response.statusText res))
    else
      body <- await_json res ;;
      features <- for_outages (outages body) [] ;;
      let fc := {| FeatureCollection.type := "FeatureCollection";
                   FeatureCollection.features := features |} in
      console_log ("ok - fetched "
                     ++ Number_toString rt (Js.of_Z (Z.of_nat (List.length features)))
                     ++ " power outages ("
                     ++ Number_toString rt (totalCustomersAffected (summary body))
                     ++ " customers affected)") ;;
      await_submit fc.

(** [control]: the [try] block, and the [catch] that logs and throws again. *)
Definition control (env : Env) : M unit :=
  try_catch (control_try env)
    (fun error =>
       console_error ("Error in ETL process: " ++ message error) ;;
       throw error).

(** One invocation, from an empty console and a fresh clock. *)
Definition run (env : Env) : (exn + unit) * state := control env initial.

End Task.

(** ** A runtime and a world to run the task on

    [Node.runtime] computes the five library functions on the part of their
    domain that the examples below use; its comments say where that part
    ends.  The theorems hold for every [Runtime]; this one serves to run
    [control] on concrete reports. *)

Module Node.

Local Open Scope Z_scope.

Definition digit (n : Z) : ascii := ascii_of_N (Z.to_N (48 + n mod 10)).

(** The decimal digits of a natural number, without leading zeros. *)
Fixpoint decimal_fuel (fuel : nat) (n : Z) (acc : string) : string :=
  match fuel with
  | O => acc
  | S fuel' =>
      let acc' := String (digit n) acc in
      if n / 10 =? 0 then acc' else decimal_fuel fuel' (n / 10) acc'
  end.

Definition decimal (n : Z) : string :=
  decimal_fuel (S (Z.to_nat (Z.log2 n))) n EmptyString.

(** The last [width] decimal digits, zero padded. *)
Fixpoint padded (width : nat) (n : Z) (acc : string) : string :=
  match width with
  | O => acc
  | S width' => padded width' (n / 10) (String (digit n) acc)
  end.

Definition pad (width : nat) (n : Z) : string := padded width n EmptyString.

(** *** Numbers *)

(** The integer a finite number stands for, when it is one. *)
Definition integer_value (x : Js.number) : option Z :=
  match x with
  | S754_zero _ => Some 0
  | S754_finite s m e =>
      let v := if s then Z.neg m else Z.pos m in
      if 0 <=? e then Some (v * 2 ^ e)
      else if v mod 2 ^ (- e) =? 0 then Some (v / 2 ^ (- e)) else None
  | _ => None
  end.

(** [n.toString()] on NaN, the infinities and the integers below 1e21.  A
    number with a fractional part is outside this instance: it prints as
    its integer part. *)
Definition Number_toString (x : Js.number) : string :=
  match x with
  | S754_nan => "NaN"
  | S754_infinity s => if s then "-Infinity" else "Infinity"
  | S754_zero _ => "0"
  | S754_finite s m e =>
      let v := match integer_value x with
               | Some v => Z.abs v
               | None => Z.pos m / 2 ^ (- e)
               end in
      ((if s then "-" else "") ++ decimal v)%string
  end.

Definition digit_value (c : ascii) : option Z :=
  let n := Z.of_N (N_of_ascii c) in
  if (48 <=? n) && (n <=? 57) then Some (n - 48) else None.

(** The value of a non-empty string of decimal digits. *)
Fixpoint digits_value (s : string) (acc : Z) : option Z :=
  match s with
  | EmptyString => Some acc
  | String c rest =>
      match digit_value c with
      | Some d => digits_value rest (10 * acc + d)
      | None => None
      end
  end.

Definition unsigned_value (s : string) : option Z :=
  match s with
  | EmptyString => None
  | _ => digits_value s 0
  end.

Definition signed (negative : bool) (v : option Z) : Js.number :=
  match v with
  | Some n => binary_normalize Js.prec Js.emax (if negative then - n else n) 0 negative
  | None => S754_nan
  end.

(** [Number(s)] on the empty string and on decimal integer literals with an
    optional sign.  White space, fractions, exponents, [Infinity] and the
    0x, 0o and 0b forms are outside this instance: it answers NaN there. *)
Definition Number (s : string) : Js.number :=
  match s with
  | EmptyString => S754_zero false
  | String "-" rest => signed true (unsigned_value rest)
  | String "+" rest => signed false (unsigned_value rest)
  | _ => signed false (unsigned_value s)
  end.

(** *** Dates *)

Definition ms_per_day : Z := 86400000.

(** Days since 1970-01-01 of a date of the proleptic Gregorian calendar. *)
Definition days_from_civil (y m d : Z) : Z :=
  let y' := if m <=? 2 then y - 1 else y in
  let era := y' / 400 in
  let yoe := y' - era * 400 in
  let doy := (153 * (if 2 <? m then m - 3 else m + 9) + 2) / 5 + d - 1 in
  let doe := yoe * 365 + yoe / 4 - yoe / 100 + doy in
  era * 146097 + doe - 719468.

(** Year, month and day of a number of days since 1970-01-01. *)
Definition civil_from_days (days : Z) : Z * Z * Z :=
  let z := days + 719468 in
  let era := z / 146097 in
  let doe := z - era * 146097 in
  let yoe := (doe - doe / 1460 + doe / 36524 - doe / 146096) / 365 in
  let doy := doe - (365 * yoe + yoe / 4 - yoe / 100) in
  let mp := (5 * doy + 2) / 153 in
  let d := doy - (153 * mp + 2) / 5 + 1 in
  let m := if mp <? 10 then mp + 3 else mp - 9 in
  let y := yoe + era * 400 in
  (if m <=? 2 then y + 1 else y, m, d).

(** 0 is Sunday; 1970-01-01 was a Thursday. *)
Definition weekday (days : Z) : Z := (days + 4) mod 7.

Definition year_string (y : Z) : string :=
  if (0 <=? y) && (y <=? 9999) then pad 4 y
  else ((if (y <? 0)%Z then "-" else "+") ++ pad 6 (Z.abs y))%string.

(** [d.toISOString()]: YYYY-MM-DDTHH:mm:ss.sssZ in UTC. *)
Definition Date_toISOString (t : Z) : string :=
  let '(y, m, d) := civil_from_days (t / ms_per_day) in
  let r := t mod ms_per_day in
  (year_string y ++ "-" ++ pad 2 m ++ "-" ++ pad 2 d
     ++ "T" ++ pad 2 (r / 3600000) ++ ":" ++ pad 2 (r / 60000 mod 60)
     ++ ":" ++ pad 2 (r / 1000 mod 60) ++ "." ++ pad 3 (r mod 1000) ++ "Z")%string.

Definition field (s : string) (from len : nat) : option Z :=
  let part := String.substring from len s in
  if Nat.eqb (String.length part) len then unsigned_value part else None.

Definition days_in_month (y m : Z) : Z :=
  days_from_civil (if m =? 12 then y + 1 else y) (if m =? 12 then 1 else m + 1) 1
    - days_from_civil y m 1.

Definition separators (s : string) : bool :=
  String.eqb (String.substring 4 1 s) "-" && String.eqb (String.substring 7 1 s) "-"
  && String.eqb (String.substring 10 1 s) "T" && String.eqb (String.substring 13 1 s) ":"
  && String.eqb (String.substring 16 1 s) ":".

Definition in_range (lo v hi : Z) : bool := (lo <=? v) && (v <=? hi).

(** [new Date(s)] on the UTC form of the date-time format of the language,
    YYYY-MM-DDTHH:mm:ssZ with an optional .sss before the Z and hours from
    00 to 23.  Other forms the runtime may accept (offsets, a date alone,
    24:00:00, legacy formats) are outside this instance: it answers the
    invalid date there, as the runtime does on the empty string and on text
    that is no date. *)
Definition Date_parse (s : string) : option Z :=
  let millis :=
    match String.length s with
    | 20%nat => if String.eqb (String.substring 19 1 s) "Z" then Some 0 else None
    | 24%nat =>
        if String.eqb (String.substring 19 1 s) "." && String.eqb (String.substring 23 1 s) "Z"
        then field s 20 3 else None
    | _ => None
    end in
  match field s 0 4, field s 5 2, field s 8 2, field s 11 2, field s 14 2, field s 17 2, millis with
  | Some y, Some m, Some d, Some hh, Some mm, Some ss, Some ms =>
      if separators s && in_range 1 m 12 && in_range 1 d (days_in_month y m)
         && in_range 0 hh 23 && in_range 0 mm 59 && in_range 0 ss 59
      then Some (days_from_civil y m d * ms_per_day
                 + hh * 3600000 + mm * 60000 + ss * 1000 + ms)
      else None
  | _, _, _, _, _, _, _ => None
  end.

(** New Zealand daylight time (rules in force since 2007) runs from the
    last Sunday of September, 02:00 standard time, to the first Sunday of
    April, 03:00 daylight time; both changes fall at 14:00 UTC of the day
    before. *)
Definition daylight (t : Z) : bool :=
  let '(y, _, _) := civil_from_days (t / ms_per_day) in
  let april1 := days_from_civil y 4 1 in
  let first_sunday_april := april1 + (7 - weekday april1) mod 7 in
  let sept30 := days_from_civil y 9 30 in
  let last_sunday_sept := sept30 - weekday sept30 in
  (t <? first_sunday_april * ms_per_day - 36000000)
  || (last_sunday_sept * ms_per_day - 36000000 <=? t).

(** [d.toLocaleString('en-NZ', { timeZone: 'Pacific/Auckland' })], for the
    years of the current daylight rules: d/MM/yyyy, h:mm:ss am or pm. *)
Definition Date_toLocaleString (d : option Z) : string :=
  match d with
  | None => "Invalid Date"
  | Some t =>
      let local := t + (if daylight t then 13 else 12) * 3600000 in
      let '(y, m, day) := civil_from_days (local / ms_per_day) in
      let r := local mod ms_per_day in
      let h := r / 3600000 in
      (decimal day ++ "/" ++ pad 2 m ++ "/" ++ decimal y ++ ", "
         ++ decimal (if (h mod 12 =? 0)%Z then 12%Z else (h mod 12)%Z)
         ++ ":" ++ pad 2 (r / 60000 mod 60) ++ ":" ++ pad 2 (r / 1000 mod 60)
         ++ (if (h <? 12)%Z then " am" else " pm"))%string
  end.

Definition runtime : Runtime :=
  Build_Runtime Number Number_toString Date_parse Date_toISOString Date_toLocaleString.

End Node.

(** ** What a run fetched and what it emitted *)

Section Observations.

Variable rt : Runtime.
Variable w : World.

(** The URL the run requests, once the configuration passed the check. *)
Definition requested (env : Env) : string :=
  request_url rt env (Number rt (Min_Customers env)).

(** The report the request of the run is answered with, if any. *)
Definition fetched_report (env : Env) : option PowerOutagesResponse :=
  match fetch w (requested env) with
  | inr res =>
      match Response.json res with
      | inr body => Some body
      | inl _ => None
      end
  | inl _ => None
  end.

(** The run handed the collection [fc] to [submit]. *)
Definition submitted (env : Env) (fc : FeatureCollection.t) : Prop :=
  In (Submitted fc) (trace (snd (run rt w env))).

(** The run fetched [body] and submitted a collection whose [i]-th feature
    is [f], the [i]-th outage of [body] being [outage]. *)
Definition emits (env : Env) (body : PowerOutagesResponse) (i : nat)
    (outage : PowerOutage) (f : Feature.t) : Prop :=
  fetched_report env = Some body /\
  nth_error (outages body) i = Some outage /\
  exists fc, submitted env fc /\ nth_error (FeatureCollection.features fc) i = Some f.

End Observations.

(** The outages that take the default expiry, each of which reads the clock
    once. *)
Definition defaults (outs : list PowerOutage) : nat :=
  List.length (filter (fun o => negb (Js.truthy (estimatedRestoration o))) outs).

(** Both timestamps of an outage that end up in [toISOString] are valid. *)
Definition timestamps_valid (rt : Runtime) (outage : PowerOutage) : Prop :=
  Date_parse rt (outageStart outage) <> None /\
  forall er, estimatedRestoration outage = Some er -> er <> EmptyString ->
             Date_parse rt er <> None.

(** Every reading of the clock plus one hour is a valid time value. *)
Definition clock_valid (w : World) : Prop :=
  forall k, (Z.abs (Date_now w k + 3600000) <= 8640000000000000)%Z.

(** The trace of a run up to its request. *)
Definition request_trace (rt : Runtime) (env : Env) : list event :=
  [ Log ("ok - Fetching power outages from " ++ requested rt env);
    Fetched (requested rt env) ].

(** The message of line 206 and the collection of line 202. *)
Definition fetched_line (rt : Runtime) (body : PowerOutagesResponse)
    (features : list Feature.t) : string :=
  "ok - fetched " ++ Number_toString rt (Js.of_Z (Z.of_nat (List.length features)))
    ++ " power outages (" ++ Number_toString rt (totalCustomersAffected (summary body))
    ++ " customers affected)".

Definition collection (features : list Feature.t) : FeatureCollection.t :=
  {| FeatureCollection.type := "FeatureCollection";
     FeatureCollection.features := features |}.

(** What the [catch] block writes for an error. *)
Definition error_line (error : exn) : event :=
  LogError ("Error in ETL process: " ++ message error).

(** An optional string with the empty string turned into [undefined]. *)
Definition blank_as_absent (v : option string) : option string :=
  match v with
  | Some EmptyString => None
  | _ => v
  end.

(** An outage with its empty optional strings removed. *)
Definition without_blanks (outage : PowerOutage) : PowerOutage :=
  {| outageId := outageId outage;
     utility := utility outage;
     region := region outage;
     regionCode := regionCode outage;
     outageStart := outageStart outage;
     estimatedRestoration := blank_as_absent (estimatedRestoration outage);
     cause := cause outage;
     status := status outage;
     outageType := blank_as_absent (outageType outage);
     customersAffected := customersAffected outage;
     crewStatus := blank_as_absent (crewStatus outage);
     location := location outage;
     metadata :=
       match metadata outage with
       | Some m =>
           Some {| feeder := blank_as_absent (feeder m);
                   lastUpdate := lastUpdate m;
                   aggregationType := blank_as_absent (aggregationType m);
                   outageCount := outageCount m |}
       | None => None
       end |}.

(** The lines of a remarks string, as [remarks.split('\n')] gives them. *)
Definition lines (text : string) : list string := Js.split "010"%char text.

(** An optional string that is set, to a string that is not empty. *)
Definition filled (v : option string) (s : string) : Prop := v = Some s /\ s <> "".

(** Every optional field of an outage is present and its streets are not
    empty. *)
Definition all_optional_present (outage : PowerOutage) : Prop :=
  estimatedRestoration outage <> None
  /\ outageType outage <> None
  /\ crewStatus outage <> None
  /\ metadata_field feeder outage <> None
  /\ metadata_field aggregationType outage <> None
  /\ streets (location outage) <> [].

(** No entry of a list of lines begins with the given label. *)
Definition no_line (label : string) (entries : list string) : Prop :=
  Forall (fun entry => String.prefix label entry = false) entries.


(** ** Reports, configurations and worlds for the examples *)

Module Example.

Definition orion : Utility.t :=
  {| Utility.name := "Orion Group"; Utility.id := "ORION_NZ" |}.

Definition at_point (areas streets : list string) : Location :=
  {| coordinates := {| latitude := Js.of_Z (-37); longitude := Js.of_Z 175 |};
     areas := areas;
     streets := streets |}.

(** Scenario A of the specification: 500 customers, one area, no estimate. *)
Definition plain_outage : PowerOutage :=
  {| outageId := "ORION-1001";
     utility := orion;
     region := "Auckland";
     regionCode := "NZ-AUK";
     outageStart := "2024-01-15T10:30:00Z";
     estimatedRestoration := None;
     cause := "Equipment failure";
     status := "active";
     outageType := None;
     customersAffected := Js.of_Z 500;
     crewStatus := None;
     location := at_point ["Ponsonby"] [];
     metadata := None |}.

(** Every optional field present and not empty. *)
Definition full_outage : PowerOutage :=
  {| outageId := "ORION-1002";
     utility := orion;
     region := "Canterbury";
     regionCode := "NZ-CAN";
     outageStart := "2024-01-15T10:30:00Z";
     estimatedRestoration := Some "2024-01-15T14:00:00Z";
     cause := "Tree contact";
     status := "active";
     outageType := Some "unplanned";
     customersAffected := Js.of_Z 120;
     crewStatus := Some "Crew on site";
     location := at_point ["Riccarton"; "Ilam"] ["Main Road"];
     metadata :=
       Some {| feeder := Some "RIC-11";
               lastUpdate := Some "2024-01-15T10:45:00Z";
               aggregationType := Some "feeder";
               outageCount := Some (Js.of_Z 3) |} |}.

(** Every optional string present and empty, and an empty first area. *)
Definition blank_outage : PowerOutage :=
  {| outageId := "ORION-1003";
     utility := orion;
     region := "Canterbury";
     regionCode := "NZ-CAN";
     outageStart := "2024-01-15T10:30:00Z";
     estimatedRestoration := Some "";
     cause := "Unknown";
     status := "active";
     outageType := Some "";
     customersAffected := Js.of_Z 3;
     crewStatus := Some "";
     location := at_point [""; "Ilam"] ["Main Road"];
     metadata :=
       Some {| feeder := Some "";
               lastUpdate := None;
               aggregationType := Some "";
               outageCount := None |} |}.

(** [full_outage] with a line feed inside its cause. *)
Definition two_line_cause : PowerOutage :=
  {| outageId := "ORION-1004";
     utility := orion;
     region := "Canterbury";
     regionCode := "NZ-CAN";
     outageStart := "2024-01-15T10:30:00Z";
     estimatedRestoration := Some "2024-01-15T14:00:00Z";
     cause := "Tree contact" ++ Js.LF ++ "Line down";
     status := "active";
     outageType := Some "unplanned";
     customersAffected := Js.of_Z 120;
     crewStatus := Some "Crew on site";
     location := at_point ["Riccarton"; "Ilam"] ["Main Road"];
     metadata := metadata full_outage |}.

Definition report (outs : list PowerOutage) : PowerOutagesResponse :=
  {| version := "1.0";
     timestamp := "2024-01-15T11:00:00Z";
     summary := {| totalUtilities := Js.of_Z 1;
                   totalOutages := Js.of_Z (Z.of_nat (List.length outs));
                   totalCustomersAffected := Js.of_Z 623 |};
     utilities := [];
     outages := outs |}.

Definition success (outs : list PowerOutage) : Response.t :=
  {| Response.ok := true;
     Response.status := Js.of_Z 200;
     Response.statusText := "OK";
     Response.json := inr (report outs) |}.

(** Scenario B of the specification. *)
Definition unavailable : Response.t :=
  {| Response.ok := false;
     Response.status := Js.of_Z 503;
     Response.statusText := "Service Unavailable";
     Response.json := inl "Unexpected token < in JSON at position 0" |}.

(** A world whose network answers every request with [res], whose clock
    starts at 2024-01-15T12:00:00Z and advances by a millisecond a reading
    (for a day of readings), and whose sink accepts. *)
Definition world (res : Response.t) : World :=
  {| fetch := fun _ => inr res;
     Date_now := fun k => (1705320000000 + Z.min (Z.of_nat k) 86400000)%Z;
     submit := fun _ => None |}.

Definition env (minimum : string) (utility_filter outage_type : option string) : Env :=
  {| API_URL := "https://utils.tak.nz/power-outages/outages";
     Min_Customers := minimum;
     Utility_Filter := utility_filter;
     Outage_Type := outage_type |}.

(** The collections a trace shows as submitted. *)
Definition submissions (tr : list event) : list FeatureCollection.t :=
  flat_map (fun e => match e with Submitted fc => [fc] | _ => [] end) tr.

(** A run over a report of four outages, with a minimum of 100 customers,
    a utility filter and an outage type that is set to the empty string. *)
Definition mixed : PowerOutagesResponse :=
  report [plain_outage; full_outage; blank_outage; two_line_cause].

Definition mixed_world : World :=
  world (success [plain_outage; full_outage; blank_outage; two_line_cause]).

Definition mixed_env : Env := env "100" (Some "ORION_NZ") (Some "").

Definition mixed_collection : FeatureCollection.t :=
  Eval vm_compute in
    hd (collection []) (submissions (trace (snd (run Node.runtime mixed_world mixed_env)))).

Definition no_feature : Feature.t :=
  {| Feature.id := "";
     Feature.type := "";
     Feature.properties :=
       {| Properties.callsign := ""; Properties.type := ""; Properties.icon := "";
          Properties.time := ""; Properties.start := ""; Properties.stale := "";
          Properties.metadata := plain_outage; Properties.remarks := "" |};
     Feature.geometry := {| Geometry.type := ""; Geometry.coordinates := [] |} |}.

(** The features of that run, by position. *)
Definition plain_feature : Feature.t :=
  Eval vm_compute in nth 0 (FeatureCollection.features mixed_collection) no_feature.
Definition full_feature : Feature.t :=
  Eval vm_compute in nth 1 (FeatureCollection.features mixed_collection) no_feature.
Definition blank_feature : Feature.t :=
  Eval vm_compute in nth 2 (FeatureCollection.features mixed_collection) no_feature.
Definition two_line_feature : Feature.t :=
  Eval vm_compute in nth 3 (FeatureCollection.features mixed_collection) no_feature.

(** The same report fetched again, later and under another configuration. *)
Definition later_world : World :=
  {| fetch := fun _ => inr (success [full_outage; plain_outage]);
     Date_now := fun _ => 1705406400000%Z;
     submit := fun _ => None |}.

Definition later_env : Env := env "0" None None.

Definition later_collection : FeatureCollection.t :=
  Eval vm_compute in
    hd (collection []) (submissions (trace (snd (run Node.runtime later_world later_env)))).

Definition plain_feature_later : Feature.t :=
  Eval vm_compute in nth 1 (FeatureCollection.features later_collection) no_feature.

End Example.

(** ** Further observations on traces, timestamps and strings *)

Definition is_fetch (e : event) : bool :=
  match e with Fetched _ => true | _ => false end.

Definition is_submit (e : event) : bool :=
  match e with Submitted _ => true | _ => false end.

Definition is_error_line (e : event) : bool :=
  match e with LogError _ => true | _ => false end.

(** A timestamp of the outage that ends up in [toISOString] is invalid. *)
Definition timestamp_invalid (rt : Runtime) (outage : PowerOutage) : Prop :=
  Date_parse rt (outageStart outage) = None
  \/ exists er, estimatedRestoration outage = Some er /\ er <> ""
                /\ Date_parse rt er = None.

(** One for a condition that holds, zero otherwise. *)
Definition flag (b : bool) : nat := if b then 1 else 0.

Definition not_empty {A : Type} (l : list A) : bool :=
  match l with
  | [] => false
  | _ :: _ => true
  end.

(** The number of occurrences of a character in a string. *)
Fixpoint count_char (c : ascii) (s : string) : nat :=
  match s with
  | EmptyString => 0
  | String d rest => flag (Ascii.eqb d c) + count_char c rest
  end.

(** Whether every character of a string passes a test. *)
Fixpoint all_chars (p : ascii -> bool) (s : string) : bool :=
  match s with
  | EmptyString => true
  | String c rest => p c && all_chars p rest
  end.

(** The characters the serializer can write for a name or a value. *)
Definition written_by_encode (c : ascii) : bool :=
  URLSearchParams.unreserved c || Ascii.eqb c "+" || Ascii.eqb c "%".

(** Further reports and worlds. *)
Module Cases.

(** An outage whose start is no date. *)
Definition undated_outage : PowerOutage :=
  {| outageId := "ORION-1005";
     utility := Example.orion;
     region := "Otago";
     regionCode := "NZ-OTA";
     outageStart := "yesterday";
     estimatedRestoration := None;
     cause := "Unknown";
     status := "active";
     outageType := None;
     customersAffected := Js.of_Z 40;
     crewStatus := None;
     location := Example.at_point [] [];
     metadata := None |}.

(** An aggregate without a count and without areas. *)
Definition uncounted_outage : PowerOutage :=
  {| outageId := "ORION-1006";
     utility := Example.orion;
     region := "Otago";
     regionCode := "NZ-OTA";
     outageStart := "2024-01-15T10:30:00Z";
     estimatedRestoration := None;
     cause := "Unknown";
     status := "active";
     outageType := None;
     customersAffected := Js.of_Z 40;
     crewStatus := None;
     location := Example.at_point [] [""];
     metadata :=
       Some {| feeder := None;
               lastUpdate := None;
               aggregationType := Some "feeder";
               outageCount := None |} |}.

Definition undated_world : World :=
  Example.world (Example.success [Example.plain_outage; undated_outage; Example.full_outage]).

Definition empty_world : World := Example.world (Example.success []).

(** The network is down. *)
Definition offline : World :=
  {| fetch := fun _ => inl "fetch failed";
     Date_now := fun _ => 1705320000000%Z;
     submit := fun _ => None |}.

(** The answer is a success whose body is no JSON. *)
Definition garbled : Response.t :=
  {| Response.ok := true;
     Response.status := Js.of_Z 200;
     Response.statusText := "OK";
     Response.json := inl "Unexpected end of JSON input" |}.

(** The sink refuses the collection. *)
Definition refusing : World :=
  {| fetch := fun _ => inr (Example.success [Example.plain_outage]);
     Date_now := fun _ => 1705320000000%Z;
     submit := fun _ => Some "submission refused" |}.

Definition refused_collection : FeatureCollection.t :=
  Eval vm_compute in
    hd (collection [])
       (Example.submissions (trace (snd (run Node.runtime refusing Example.later_env)))).

(** The feature of [Example.full_outage] in the later run. *)
Definition full_feature_later : Feature.t :=
  Eval vm_compute in nth 0 (FeatureCollection.features Example.later_collection)
                       Example.no_feature.

(** A filter that tries to carry a parameter of its own. *)
Definition crafted_env : Env :=
  Example.env "5" (Some "ORION_NZ&outageType=planned") (Some "un planned").

End Cases.

(** * Properties *)

(** ** Strings and lines *)

Lemma append_nil_r (s : string) : s ++ "" = s.
Proof. induction s as [|c s IH]; simpl; [reflexivity | now rewrite IH]. Qed.

Lemma append_assoc (a b c : string) : (a ++ b) ++ c = a ++ (b ++ c).
Proof. induction a as [|x a IH]; simpl; [reflexivity | now rewrite IH]. Qed.

Lemma occurs_append (c : ascii) (a b : string) :
  Js.occurs c (a ++ b) = Js.occurs c a || Js.occurs c b.
Proof.
  induction a as [|x a IH]; simpl; [reflexivity|].
  rewrite IH. now rewrite orb_assoc.
Qed.

(** A string without the separator is a single piece. *)
Lemma split_whole (sep : ascii) (s : string) :
  Js.occurs sep s = false -> Js.split sep s = [s].
Proof.
  induction s as [|c s IH]; simpl; intros H; [reflexivity|].
  apply orb_false_iff in H as [Hc Hs].
  rewrite Hc, (IH Hs). reflexivity.
Qed.

(** Splitting after a piece without the separator, followed by the separator. *)
Lemma split_piece (sep : ascii) (piece rest : string) :
  Js.occurs sep piece = false ->
  Js.split sep (piece ++ String sep rest) = piece :: Js.split sep rest.
Proof.
  induction piece as [|c piece IH]; simpl; intros H.
  - now rewrite Ascii.eqb_refl.
  - apply orb_false_iff in H as [Hc Hs].
    rewrite Hc, (IH Hs). reflexivity.
Qed.

(** [split] undoes [join] on pieces that do not contain the separator. *)
Lemma split_join (sep : ascii) (pieces : list string) :
  pieces <> [] ->
  Forall (fun piece => Js.occurs sep piece = false) pieces ->
  Js.split sep (Js.join (String sep "") pieces) = pieces.
Proof.
  induction pieces as [|piece rest IH]; intros Hne Hall; [congruence|].
  inversion Hall as [|? ? Hpiece Hrest]; subst.
  destruct rest as [|next rest].
  - simpl. now apply split_whole.
  - change (Js.join (String sep "") (piece :: next :: rest))
      with (piece ++ String sep "" ++ Js.join (String sep "") (next :: rest)).
    change (String sep "" ++ Js.join (String sep "") (next :: rest))
      with (String sep (Js.join (String sep "") (next :: rest))).
    rewrite split_piece by assumption.
    rewrite IH; [reflexivity | discriminate | assumption].
Qed.

(** ** One turn of the loop *)

Lemma state_eta (s : state) : {| trace := trace s; ticks := ticks s |} = s.
Proof. now destruct s. Qed.

Section Turn.

Variable rt : Runtime.
Variable w : World.

Lemma toISOString_inv (d : option Z) (s s' : state) (iso : string) :
  toISOString rt d s = (inr iso, s') ->
  exists t, d = Some t /\ iso = Date_toISOString rt t /\ s' = s.
Proof.
  destruct d as [t|]; simpl; intros H; [|discriminate].
  inversion H; subst. now exists t.
Qed.

(** [toISOString] leaves the state alone, whether it throws or not. *)
Lemma toISOString_state (d : option Z) (s : state) :
  snd (toISOString rt d s) = s.
Proof. now destruct d. Qed.

(** With a restoration estimate that is not empty the estimate is parsed and
    the clock is not read. *)
Lemma stale_estimate (outage : PowerOutage) (er : string) (s : state) :
  estimatedRestoration outage = Some er -> er <> "" ->
  stale rt w outage s = toISOString rt (Date_parse rt er) s.
Proof.
  intros Her Hne. unfold stale. rewrite Her.
  destruct er as [|c er]; [congruence | reflexivity].
Qed.

(** Without one, or with the empty string, the clock is read once. *)
Lemma stale_default (outage : PowerOutage) (s : state) :
  Js.truthy (estimatedRestoration outage) = false ->
  stale rt w outage s =
    toISOString rt (Date_of_ms (Date_now w (ticks s) + 3600000))
      {| trace := trace s; ticks := S (ticks s) |}.
Proof.
  intros H. unfold stale.
  destruct (estimatedRestoration outage) as [[|c er]|]; try discriminate; reflexivity.
Qed.

Lemma Date_of_ms_inv (v t : Z) : Date_of_ms v = Some t -> t = v.
Proof.
  unfold Date_of_ms. destruct (Z.abs v <=? 8640000000000000)%Z; congruence.
Qed.

(** What a turn that did not throw has built. *)
Lemma feature_inv (outage : PowerOutage) (s s' : state) (f : Feature.t) :
  feature rt w outage s = (inr f, s') ->
  exists t iso,
    Date_parse rt (outageStart outage) = Some t /\
    stale rt w outage s = (inr iso, s') /\
    f = {| Feature.id := "poweroutage-" ++ outageId outage;
           Feature.type := "Feature";
           Feature.properties :=
             {| Properties.callsign := callsign outage;
                Properties.type := "a-f-X-i";
                Properties.icon := ICON;
                Properties.time := Date_toISOString rt t;
                Properties.start := Date_toISOString rt t;
                Properties.stale := iso;
                Properties.metadata := outage;
                Properties.remarks := Js.join Js.LF (remarks rt outage) |};
           Feature.geometry :=
             {| Geometry.type := "Point";
                Geometry.coordinates :=
                  [longitude (coordinates (location outage));
                   latitude (coordinates (location outage))] |} |}.
Proof.
  unfold feature, bind.
  destruct (Date_parse rt (outageStart outage)) as [t|]; simpl; [|discriminate].
  destruct (stale rt w outage s) as [[e|iso] s1]; [discriminate|].
  unfold ret. intros H. inversion H; subst.
  now exists t, iso.
Qed.

(** A turn does not write to the trace, and reads the clock once exactly
    when it builds a feature with the default expiry. *)
Lemma stale_trace (outage : PowerOutage) (s : state) :
  trace (snd (stale rt w outage s)) = trace s.
Proof.
  unfold stale.
  destruct (estimatedRestoration outage) as [[|c er]|]; simpl;
    unfold bind, now; simpl;
    try (now rewrite toISOString_state);
    now destruct (Date_of_ms _).
Qed.

Lemma feature_trace (outage : PowerOutage) (s : state) :
  trace (snd (feature rt w outage s)) = trace s.
Proof.
  unfold feature, bind.
  destruct (Date_parse rt (outageStart outage)) as [t|]; simpl; [|reflexivity].
  pose proof (stale_trace outage s) as H.
  destruct (stale rt w outage s) as [[e|iso] s1]; simpl in *; assumption.
Qed.

Lemma feature_ticks (outage : PowerOutage) (s s' : state) (f : Feature.t) :
  feature rt w outage s = (inr f, s') ->
  ticks s' = ticks s + defaults [outage].
Proof.
  intros H. apply feature_inv in H as (t & iso & _ & Hs & _).
  unfold defaults. simpl.
  destruct (Js.truthy (estimatedRestoration outage)) eqn:Htruthy; simpl.
  - destruct (estimatedRestoration outage) as [[|c er]|] eqn:Her; try discriminate.
    rewrite (stale_estimate outage (String c er)) in Hs by (assumption || discriminate).
    apply toISOString_inv in Hs as (_ & _ & _ & ->). lia.
  - rewrite stale_default in Hs by assumption.
    apply toISOString_inv in Hs as (_ & _ & _ & ->). simpl. lia.
Qed.

End Turn.

(** ** The loop *)

Lemma defaults_cons (outage : PowerOutage) (outs : list PowerOutage) :
  defaults (outage :: outs) = defaults [outage] + defaults outs.
Proof.
  unfold defaults. simpl.
  now destruct (negb (Js.truthy (estimatedRestoration outage))).
Qed.

Section Loop.

Variable rt : Runtime.
Variable w : World.

Lemma for_outages_trace (outs : list PowerOutage) :
  forall acc s, trace (snd (for_outages rt w outs acc s)) = trace s.
Proof.
  induction outs as [|outage outs IH]; intros acc s; simpl; [reflexivity|].
  unfold bind. pose proof (feature_trace rt w outage s) as H.
  destruct (feature rt w outage s) as [[e|f] s1]; simpl in *; [assumption|].
  now rewrite IH.
Qed.

(** A loop that ran to its end pushed one feature a turn, in the order of
    the outages; the turn of the [i]-th outage started at the clock reading
    that follows the defaults before it. *)
Lemma for_outages_inv (outs : list PowerOutage) :
  forall acc s fs s',
    for_outages rt w outs acc s = (inr fs, s') ->
    ticks s' = ticks s + defaults outs /\
    exists built,
      fs = (acc ++ built)%list /\
      List.length built = List.length outs /\
      forall i outage,
        nth_error outs i = Some outage ->
        exists f,
          nth_error built i = Some f /\
          feature rt w outage
            {| trace := trace s; ticks := ticks s + defaults (firstn i outs) |}
          = (inr f,
             {| trace := trace s; ticks := ticks s + defaults (firstn (S i) outs) |}).
Proof.
  induction outs as [|outage outs IH]; intros acc s fs s' H; simpl in H.
  - inversion H; subst. split; [unfold defaults; simpl; lia|].
    exists []. rewrite app_nil_r. repeat split.
    intros [|i] o Hi; discriminate.
  - unfold bind in H.
    destruct (feature rt w outage s) as [[e|f] s1] eqn:Hturn; [discriminate|].
    pose proof (feature_trace rt w outage s) as Htrace.
    rewrite Hturn in Htrace. simpl in Htrace.
    pose proof (feature_ticks rt w outage s s1 f Hturn) as Hticks.
    apply IH in H as (Hend & built & -> & Hlen & Hnth).
    split; [rewrite defaults_cons; lia|].
    exists (f :: built). split; [now rewrite <- app_assoc|].
    split; [simpl; now rewrite Hlen|].
    intros [|i] o Hi; simpl in Hi.
    + inversion Hi; subst o. exists f. split; [reflexivity|].
      change (firstn 0 (outage :: outs)) with (@nil PowerOutage).
      change (firstn 1 (outage :: outs)) with ([outage] ++ firstn 0 outs)%list.
      simpl firstn. rewrite app_nil_r.
      replace (ticks s + defaults []) with (ticks s) by (unfold defaults; simpl; lia).
      rewrite state_eta, Hturn. f_equal.
      destruct s1 as [tr k]. simpl in *. now subst.
    + destruct (Hnth i o Hi) as (g & Hg & Hrun).
      exists g. split; [assumption|].
      rewrite Htrace, Hticks in Hrun.
      change (firstn (S i) (outage :: outs)) with (outage :: firstn i outs).
      change (firstn (S (S i)) (outage :: outs)) with (outage :: firstn (S i) outs).
      rewrite (defaults_cons outage (firstn i outs)).
      rewrite (defaults_cons outage (firstn (S i) outs)), !Nat.add_assoc.
      exact Hrun.
Qed.

End Loop.

(** ** The run, case by case *)

Section Run.

Variable rt : Runtime.
Variable w : World.

(** A configuration that fails the check stops the run at once. *)
Lemma run_invalid (env : Env) :
  invalid_minimum (Number rt (Min_Customers env)) = true ->
  run rt w env
  = (inl (Error "Invalid minimum customers value"),
     {| trace := [error_line (Error "Invalid minimum customers value")]; ticks := 0 |}).
Proof.
  intros H. unfold run, control, try_catch, control_try. now rewrite H.
Qed.

(** Every way a run with a valid configuration can go. *)
Lemma run_valid (env : Env) :
  invalid_minimum (Number rt (Min_Customers env)) = false ->
  match fetch w (requested rt env) with
  | inl reason =>
      run rt w env
      = (inl (Rejected TheFetch reason),
         {| trace := request_trace rt env ++ [error_line (Rejected TheFetch reason)];
            ticks := 0 |})
  | inr res =>
      if Response.ok res then
        match Response.json res with
        | inl reason =>
            run rt w env
            = (inl (Rejected TheBody reason),
               {| trace := request_trace rt env ++ [error_line (Rejected TheBody reason)];
                  ticks := 0 |})
        | inr body =>
            match for_outages rt w (outages body) []
                    {| trace := request_trace rt env; ticks := 0 |} with
            | (inl e, s) =>
                run rt w env
                = (inl e,
                   {| trace := request_trace rt env ++ [error_line e];
                      ticks := ticks s |})
            | (inr features, s) =>
                match submit w (collection features) with
                | None =>
                    run rt w env
                    = (inr tt,
                       {| trace := request_trace rt env
                                   ++ [Log (fetched_line rt body features);
                                       Submitted (collection features)];
                          ticks := ticks s |})
                | Some reason =>
                    run rt w env
                    = (inl (Rejected TheSink reason),
                       {| trace := request_trace rt env
                                   ++ [Log (fetched_line rt body features);
                                       Submitted (collection features);
                                       error_line (Rejected TheSink reason)];
                          ticks := ticks s |})
                end
            end
        end
      else
        run rt w env
        = (inl (Error ("Failed to fetch data: " ++ Number_toString rt (Response.status res)
                         ++ " " ++ Response.statusText res)),
           {| trace := request_trace rt env
                       ++ [error_line
                             (Error ("Failed to fetch data: "
                                       ++ Number_toString rt (Response.status res)
                                       ++ " " ++ Response.statusText res))];
              ticks := 0 |})
  end.
Proof.
  intros Hvalid.
  unfold run, control, try_catch, control_try. rewrite Hvalid.
  fold (requested rt env).
  unfold bind, console_log, console_error, await_fetch, emit, bind, initial. simpl.
  destruct (fetch w (requested rt env)) as [reason|res]; simpl; [reflexivity|].
  destruct (Response.ok res); simpl; [|reflexivity].
  unfold await_json.
  destruct (Response.json res) as [reason|body]; simpl; [reflexivity|].
  fold (request_trace rt env).
  pose proof (for_outages_trace rt w (outages body) []
                {| trace := request_trace rt env; ticks := 0 |}) as Htrace.
  destruct (for_outages rt w (outages body) [] _) as [[e|features] [tr k]];
    simpl in Htrace; subst tr; simpl; [reflexivity|].
  unfold await_submit, bind, emit. simpl.
  fold (collection features). fold (fetched_line rt body features).
  destruct (submit w (collection features)) as [reason|]; reflexivity.
Qed.

End Run.

(** ** From the trace back to the turns of the loop *)

Ltac trace_cases H :=
  unfold request_trace, error_line in H;
  cbn [app In trace snd] in H;
  repeat (destruct H as [H|H]; try discriminate H);
  try contradiction.

Section Emitted.

Variable rt : Runtime.
Variable w : World.

(** A collection reaches [submit] only after a valid configuration, a
    successful answer, a parsed body and a loop that ran to its end. *)
Lemma submitted_inv (env : Env) (fc : FeatureCollection.t) :
  submitted rt w env fc ->
  invalid_minimum (Number rt (Min_Customers env)) = false /\
  exists res body s,
    fetch w (requested rt env) = inr res /\
    Response.ok res = true /\
    Response.json res = inr body /\
    for_outages rt w (outages body) [] {| trace := request_trace rt env; ticks := 0 |}
    = (inr (FeatureCollection.features fc), s) /\
    fc = collection (FeatureCollection.features fc).
Proof.
  unfold submitted. intros H.
  destruct (invalid_minimum (Number rt (Min_Customers env))) eqn:Hmin.
  - rewrite run_invalid in H by assumption. trace_cases H.
  - split; [reflexivity|].
    pose proof (run_valid rt w env Hmin) as Hrun.
    destruct (fetch w (requested rt env)) as [reason|res];
      [rewrite Hrun in H; trace_cases H|].
    destruct (Response.ok res) eqn:Hok; [|rewrite Hrun in H; trace_cases H].
    destruct (Response.json res) as [reason|body] eqn:Hjson; [rewrite Hrun in H; trace_cases H|].
    destruct (for_outages rt w (outages body) [] _) as [[e|features] s] eqn:Hloop;
      [rewrite Hrun in H; trace_cases H|].
    exists res, body, s.
    destruct (submit w (collection features)); rewrite Hrun in H; trace_cases H;
      inversion H; subst fc; simpl; now repeat split.
Qed.

(** The report of a run that submitted is the one its loop went through. *)
Lemma submitted_loop (env : Env) (body : PowerOutagesResponse) (fc : FeatureCollection.t) :
  fetched_report rt w env = Some body ->
  submitted rt w env fc ->
  exists s,
    for_outages rt w (outages body) [] {| trace := request_trace rt env; ticks := 0 |}
    = (inr (FeatureCollection.features fc), s).
Proof.
  intros Hbody Hsub.
  apply submitted_inv in Hsub as (_ & res & body' & s & Hfetch & _ & Hjson & Hloop & _).
  unfold fetched_report in Hbody. rewrite Hfetch, Hjson in Hbody.
  inversion Hbody; subst body'. now exists s.
Qed.

(** The turn behind an emitted feature. *)
Lemma emits_turn (env : Env) (body : PowerOutagesResponse) (i : nat)
    (outage : PowerOutage) (f : Feature.t) :
  emits rt w env body i outage f ->
  feature rt w outage
    {| trace := request_trace rt env; ticks := defaults (firstn i (outages body)) |}
  = (inr f,
     {| trace := request_trace rt env; ticks := defaults (firstn (S i) (outages body)) |}).
Proof.
  intros (Hbody & Hi & fc & Hsub & Hf).
  destruct (submitted_loop env body fc Hbody Hsub) as (s & Hloop).
  apply for_outages_inv in Hloop as (_ & built & Hfs & _ & Hnth).
  destruct (Hnth i outage Hi) as (g & Hg & Hturn).
  simpl in Hfs. rewrite Hfs, Hg in Hf. inversion Hf; subst g.
  exact Hturn.
Qed.

(** *** Progress *)

Lemma Date_of_ms_valid (k : nat) :
  clock_valid w ->
  Date_of_ms (Date_now w k + 3600000) = Some (Date_now w k + 3600000)%Z.
Proof.
  intros Hclock. unfold Date_of_ms.
  destruct (Z.leb_spec (Z.abs (Date_now w k + 3600000)) 8640000000000000) as [_|Hbad];
    [reflexivity|].
  specialize (Hclock k). lia.
Qed.

Lemma feature_total (outage : PowerOutage) (s : state) :
  timestamps_valid rt outage -> clock_valid w ->
  exists f s', feature rt w outage s = (inr f, s').
Proof.
  intros (Hstart & Hest) Hclock.
  unfold feature, bind.
  destruct (Date_parse rt (outageStart outage)) as [t|]; [simpl|congruence].
  assert (exists iso s', stale rt w outage s = (inr iso, s')) as (iso & s' & ->).
  { destruct (Js.truthy (estimatedRestoration outage)) eqn:Htruthy.
    - destruct (estimatedRestoration outage) as [[|c er]|] eqn:Her; try discriminate.
      rewrite (stale_estimate rt w outage (String c er)) by (assumption || discriminate).
      destruct (Date_parse rt (String c er)) as [t'|] eqn:Hparse;
        [simpl; unfold ret; eauto|].
      exfalso. apply (Hest (String c er)); [reflexivity | discriminate | assumption].
    - rewrite stale_default, Date_of_ms_valid by assumption.
      simpl. unfold ret. eauto. }
  unfold ret. eauto.
Qed.

Lemma for_outages_total (outs : list PowerOutage) :
  Forall (timestamps_valid rt) outs -> clock_valid w ->
  forall acc s, exists fs s', for_outages rt w outs acc s = (inr fs, s').
Proof.
  intros Hall Hclock.
  induction Hall as [|outage outs Hvalid _ IH]; intros acc s; simpl.
  - unfold ret. eauto.
  - unfold bind.
    destruct (feature_total outage s Hvalid Hclock) as (f & s1 & ->).
    apply IH.
Qed.

(** With valid timestamps in the report the run reaches [submit]. *)
Lemma run_submits (env : Env) (res : Response.t) (body : PowerOutagesResponse) :
  invalid_minimum (Number rt (Min_Customers env)) = false ->
  fetch w (requested rt env) = inr res ->
  Response.ok res = true ->
  Response.json res = inr body ->
  Forall (timestamps_valid rt) (outages body) ->
  clock_valid w ->
  exists fc, submitted rt w env fc.
Proof.
  intros Hmin Hfetch Hok Hjson Hall Hclock.
  pose proof (run_valid rt w env Hmin) as Hrun.
  rewrite Hfetch, Hok, Hjson in Hrun.
  destruct (for_outages_total (outages body) Hall Hclock []
              {| trace := request_trace rt env; ticks := 0 |}) as (fs & s & Hloop).
  rewrite Hloop in Hrun.
  exists (collection fs). unfold submitted.
  destruct (submit w (collection fs)); rewrite Hrun;
    unfold request_trace; cbn [app In trace snd]; tauto.
Qed.

End Emitted.

(** ** Concrete runs *)

Ltac in_trace :=
  vm_compute; repeat (first [left; reflexivity | right]).

Ltac emitted_in fc :=
  split; [vm_compute; reflexivity|];
  split; [reflexivity|];
  exists fc; split; [unfold submitted; in_trace | reflexivity].

(** ** The identifier *)

(** C7. Every emitted feature has the identifier ["poweroutage-"] followed by
    the [outageId] of its outage, and a feature emitted for the same outage
    by any other run (another runtime, world, configuration or position in
    the report) has the same identifier. *)
Theorem identifier_stable (rt rt' : Runtime) (w w' : World) (env env' : Env)
    (body body' : PowerOutagesResponse) (i j : nat) (outage : PowerOutage)
    (f f' : Feature.t) :
  emits rt w env body i outage f ->
  emits rt' w' env' body' j outage f' ->
  Feature.id f = "poweroutage-" ++ outageId outage /\ Feature.id f' = Feature.id f.
Proof.
  intros H H'.
  apply emits_turn, feature_inv in H as (t & iso & _ & _ & ->).
  apply emits_turn, feature_inv in H' as (t' & iso' & _ & _ & ->).
  split; reflexivity.
Qed.

Lemma identifier_stable_witness :
  Feature.id Example.plain_feature = "poweroutage-ORION-1001"
  /\ Feature.id Example.plain_feature_later = Feature.id Example.plain_feature.
Proof.
  apply (identifier_stable Node.runtime Node.runtime Example.mixed_world Example.later_world
           Example.mixed_env Example.later_env
           Example.mixed (Example.report [Example.full_outage; Example.plain_outage])
           0 1 Example.plain_outage).
  - emitted_in Example.mixed_collection.
  - emitted_in Example.later_collection.
Defined.

(** ** The embedded record *)

(** C9. The metadata payload of every emitted feature is the outage it was
    built from, whole and unchanged; every field of the record is read back
    from it as it was. *)
Theorem metadata_verbatim (rt : Runtime) (w : World) (env : Env)
    (body : PowerOutagesResponse) (i : nat) (outage : PowerOutage) (f : Feature.t) :
  emits rt w env body i outage f ->
  Properties.metadata (Feature.properties f) = outage.
Proof.
  intros H. apply emits_turn, feature_inv in H as (t & iso & _ & _ & ->).
  reflexivity.
Qed.

Lemma metadata_verbatim_witness :
  Properties.metadata (Feature.properties Example.full_feature) = Example.full_outage.
Proof.
  apply (metadata_verbatim Node.runtime Example.mixed_world Example.mixed_env
           Example.mixed 1).
  emitted_in Example.mixed_collection.
Defined.

(** ** No threshold in the transformer *)

(** C2, as stated, fails: the run with a minimum of 100 customers submits a
    feature for an outage that affects 3 customers, although 3 >= 100 is
    false. *)
Lemma threshold_counterexample :
  emits Node.runtime Example.mixed_world Example.mixed_env Example.mixed 2
    Example.blank_outage Example.blank_feature
  /\ Number Node.runtime (Min_Customers Example.mixed_env) = Js.of_Z 100
  /\ customersAffected Example.blank_outage = Js.of_Z 3
  /\ Js.geb (customersAffected Example.blank_outage)
       (Number Node.runtime (Min_Customers Example.mixed_env)) = false.
Proof.
  split; [emitted_in Example.mixed_collection|].
  repeat split; vm_compute; reflexivity.
Qed.

(** C2, amended. The loop has no threshold of its own: when the request is
    answered with a report whose timestamps are valid, the run submits a
    collection with exactly one feature for every outage of the report, in
    the order of the report, whatever the outage's [customersAffected] and
    whatever the configured minimum. *)
Theorem every_outage_mapped (rt : Runtime) (w : World) (env : Env)
    (res : Response.t) (body : PowerOutagesResponse) :
  invalid_minimum (Number rt (Min_Customers env)) = false ->
  fetch w (requested rt env) = inr res ->
  Response.ok res = true ->
  Response.json res = inr body ->
  Forall (timestamps_valid rt) (outages body) ->
  clock_valid w ->
  exists fc,
    submitted rt w env fc /\
    List.length (FeatureCollection.features fc) = List.length (outages body) /\
    forall i outage,
      nth_error (outages body) i = Some outage ->
      exists f,
        nth_error (FeatureCollection.features fc) i = Some f /\
        Properties.metadata (Feature.properties f) = outage.
Proof.
  intros Hmin Hfetch Hok Hjson Hall Hclock.
  destruct (run_submits rt w env res body Hmin Hfetch Hok Hjson Hall Hclock) as (fc & Hsub).
  exists fc. split; [assumption|].
  assert (fetched_report rt w env = Some body) as Hbody
    by (unfold fetched_report; now rewrite Hfetch, Hjson).
  destruct (submitted_loop rt w env body fc Hbody Hsub) as (s & Hloop).
  apply for_outages_inv in Hloop as (_ & built & Hfs & Hlen & Hnth).
  simpl in Hfs. subst built. split; [assumption|].
  intros i outage Hi.
  destruct (Hnth i outage Hi) as (f & Hf & Hturn).
  exists f. split; [assumption|].
  apply feature_inv in Hturn as (t & iso & _ & _ & ->). reflexivity.
Qed.

Lemma timestamps_valid_mixed :
  Forall (timestamps_valid Node.runtime) (outages Example.mixed).
Proof.
  unfold Example.mixed, Example.report. cbn [outages].
  repeat (apply Forall_cons); try apply Forall_nil.
  all: split; [vm_compute; discriminate|].
  all: intros er Her Hne; cbn in Her; try discriminate Her.
  all: injection Her as <-; solve [vm_compute; discriminate | now contradiction Hne].
Defined.

Lemma clock_valid_world (res : Response.t) : clock_valid (Example.world res).
Proof.
  intros k. unfold Example.world, Date_now. lia.
Defined.

Lemma every_outage_mapped_witness :
  exists fc,
    submitted Node.runtime Example.mixed_world Example.mixed_env fc /\
    List.length (FeatureCollection.features fc) = List.length (outages Example.mixed) /\
    forall i outage,
      nth_error (outages Example.mixed) i = Some outage ->
      exists f,
        nth_error (FeatureCollection.features fc) i = Some f /\
        Properties.metadata (Feature.properties f) = outage.
Proof.
  apply (every_outage_mapped Node.runtime Example.mixed_world Example.mixed_env
           (Example.success (outages Example.mixed)) Example.mixed).
  - vm_compute. reflexivity.
  - reflexivity.
  - reflexivity.
  - reflexivity.
  - exact timestamps_valid_mixed.
  - exact (clock_valid_world _).
Defined.

(** ** The expiry *)

(** C3, as stated, fails: an outage whose [estimatedRestoration] is present
    and is the empty string gets the default expiry, an hour after the clock
    reading of its turn, and not an instant parsed from the field (the empty
    string parses to no instant at all). *)
Lemma stale_counterexample :
  emits Node.runtime Example.mixed_world Example.mixed_env Example.mixed 2
    Example.blank_outage Example.blank_feature
  /\ estimatedRestoration Example.blank_outage = Some ""
  /\ Properties.stale (Feature.properties Example.blank_feature)
     = Date_toISOString Node.runtime (Date_now Example.mixed_world 1 + 3600000)
  /\ ~ (exists t, Date_parse Node.runtime "" = Some t
                  /\ Properties.stale (Feature.properties Example.blank_feature)
                     = Date_toISOString Node.runtime t).
Proof.
  split; [emitted_in Example.mixed_collection|].
  split; [reflexivity|].
  split; [vm_compute; reflexivity|].
  intros (t & Hparse & _). vm_compute in Hparse. discriminate Hparse.
Qed.

(** C3, amended. The [stale] property of an emitted feature is the ISO
    rendering of the instant parsed from [estimatedRestoration] when that
    field is present and not the empty string; when the field is absent or
    is the empty string, it is the ISO rendering of the clock reading taken
    in the turn of that outage plus exactly 3,600,000 milliseconds. *)
Theorem stale_of_emitted (rt : Runtime) (w : World) (env : Env)
    (body : PowerOutagesResponse) (i : nat) (outage : PowerOutage) (f : Feature.t) :
  emits rt w env body i outage f ->
  (forall er,
      estimatedRestoration outage = Some er -> er <> "" ->
      exists t, Date_parse rt er = Some t
                /\ Properties.stale (Feature.properties f) = Date_toISOString rt t)
  /\ (estimatedRestoration outage = None \/ estimatedRestoration outage = Some "" ->
      Properties.stale (Feature.properties f)
      = Date_toISOString rt
          (Date_now w (defaults (firstn i (outages body))) + 3600000)).
Proof.
  intros H. apply emits_turn, feature_inv in H as (t & iso & _ & Hstale & ->).
  cbn [Feature.properties Properties.stale]. split.
  - intros er Her Hne.
    rewrite (stale_estimate rt w outage er _ Her Hne) in Hstale.
    apply toISOString_inv in Hstale as (t' & Hparse & -> & _). now exists t'.
  - intros Hfalsy.
    rewrite stale_default in Hstale by (destruct Hfalsy as [-> | ->]; reflexivity).
    apply toISOString_inv in Hstale as (t' & Hclip & -> & _).
    apply Date_of_ms_inv in Hclip. now subst t'.
Qed.

(** The second outage of the example has an estimate, the first has none. *)
Lemma stale_of_emitted_witness :
  Properties.stale (Feature.properties Example.full_feature)
  = Date_toISOString Node.runtime 1705327200000
  /\ Properties.stale (Feature.properties Example.plain_feature)
     = Date_toISOString Node.runtime (Date_now Example.mixed_world 0 + 3600000).
Proof.
  split.
  - destruct (stale_of_emitted Node.runtime Example.mixed_world Example.mixed_env
                Example.mixed 1 Example.full_outage Example.full_feature) as (Hset & _).
    + emitted_in Example.mixed_collection.
    + destruct (Hset "2024-01-15T14:00:00Z") as (t & Hparse & Hstale);
        [reflexivity | discriminate |].
      vm_compute in Hparse. injection Hparse as <-. exact Hstale.
  - destruct (stale_of_emitted Node.runtime Example.mixed_world Example.mixed_env
                Example.mixed 0 Example.plain_outage Example.plain_feature) as (_ & Hunset).
    + emitted_in Example.mixed_collection.
    + apply Hunset. left. reflexivity.
Defined.

(** ** The callsign *)

(** C8, as stated, fails: with areas [""; "Ilam"] the sequence is not empty,
    yet the callsign ends with the region and not with the first area. *)
Lemma callsign_counterexample :
  emits Node.runtime Example.mixed_world Example.mixed_env Example.mixed 2
    Example.blank_outage Example.blank_feature
  /\ areas (location Example.blank_outage) = [""; "Ilam"]
  /\ Properties.callsign (Feature.properties Example.blank_feature)
     = "Orion Group - Canterbury"
  /\ Properties.callsign (Feature.properties Example.blank_feature)
     <> Utility.name (utility Example.blank_outage) ++ " - " ++ "".
Proof.
  split; [emitted_in Example.mixed_collection|].
  repeat split; vm_compute; congruence.
Qed.

(** C8, amended. The callsign of an emitted feature is the utility name,
    then [" - "], then the first element of [location.areas] when the
    sequence is not empty and that element is not the empty string, and the
    region when the sequence is empty or begins with the empty string. *)
Theorem callsign_of_emitted (rt : Runtime) (w : World) (env : Env)
    (body : PowerOutagesResponse) (i : nat) (outage : PowerOutage) (f : Feature.t) :
  emits rt w env body i outage f ->
  (forall area rest,
      areas (location outage) = area :: rest -> area <> "" ->
      Properties.callsign (Feature.properties f)
      = Utility.name (utility outage) ++ " - " ++ area)
  /\ (areas (location outage) = []
      \/ (exists rest, areas (location outage) = "" :: rest) ->
      Properties.callsign (Feature.properties f)
      = Utility.name (utility outage) ++ " - " ++ region outage).
Proof.
  intros H. apply emits_turn, feature_inv in H as (t & iso & _ & _ & ->).
  cbn [Feature.properties Properties.callsign]. unfold callsign. split.
  - intros area rest -> Hne. destruct area as [|c area]; [congruence | reflexivity].
  - intros [-> | (rest & ->)]; reflexivity.
Qed.

(** The first outage of the example has an area, the third begins with an
    empty one. *)
Lemma callsign_of_emitted_witness :
  Properties.callsign (Feature.properties Example.plain_feature) = "Orion Group - Ponsonby"
  /\ Properties.callsign (Feature.properties Example.blank_feature)
     = "Orion Group - Canterbury".
Proof.
  split.
  - destruct (callsign_of_emitted Node.runtime Example.mixed_world Example.mixed_env
                Example.mixed 0 Example.plain_outage Example.plain_feature) as (Harea & _).
    + emitted_in Example.mixed_collection.
    + apply (Harea "Ponsonby" []); [reflexivity | discriminate].
  - destruct (callsign_of_emitted Node.runtime Example.mixed_world Example.mixed_env
                Example.mixed 2 Example.blank_outage Example.blank_feature) as (_ & Hregion).
    + emitted_in Example.mixed_collection.
    + apply Hregion. right. now exists ["Ilam"].
Defined.

(** Scenario A of the specification. *)
Example scenario_A :
  Properties.callsign (Feature.properties Example.plain_feature) = "Orion Group - Ponsonby"
  /\ Geometry.type (Feature.geometry Example.plain_feature) = "Point"
  /\ Properties.stale (Feature.properties Example.plain_feature)
     = "2024-01-15T13:00:00.000Z".
Proof. repeat split. Qed.

(** ** Errors *)

Section Throws.

Variable rt : Runtime.
Variable w : World.

Lemma toISOString_throws (d : option Z) (s s' : state) (e : exn) :
  toISOString rt d s = (inl e, s') -> e = RangeError "Invalid time value".
Proof. destruct d; simpl; intros H; now inversion H. Qed.

Lemma stale_throws (outage : PowerOutage) (s s' : state) (e : exn) :
  stale rt w outage s = (inl e, s') -> e = RangeError "Invalid time value".
Proof.
  destruct (Js.truthy (estimatedRestoration outage)) eqn:Htruthy.
  - destruct (estimatedRestoration outage) as [[|c er]|] eqn:Her; try discriminate.
    rewrite (stale_estimate rt w outage (String c er)) by (assumption || discriminate).
    apply toISOString_throws.
  - rewrite stale_default by assumption. apply toISOString_throws.
Qed.

Lemma feature_throws (outage : PowerOutage) (s s' : state) (e : exn) :
  feature rt w outage s = (inl e, s') -> e = RangeError "Invalid time value".
Proof.
  unfold feature, bind.
  destruct (Date_parse rt (outageStart outage)); simpl;
    [|intros H; now inversion H].
  destruct (stale rt w outage s) as [[e'|iso] s1] eqn:Hstale; [|discriminate].
  intros H. inversion H; subst. eapply stale_throws, Hstale.
Qed.

(** The loop throws nothing but the [RangeError] of an invalid timestamp. *)
Lemma for_outages_throws (outs : list PowerOutage) :
  forall acc s s' e,
    for_outages rt w outs acc s = (inl e, s') -> e = RangeError "Invalid time value".
Proof.
  induction outs as [|outage outs IH]; intros acc s s' e; simpl; [discriminate|].
  unfold bind.
  destruct (feature rt w outage s) as [[e'|f] s1] eqn:Hturn.
  - intros H. inversion H; subst. eapply feature_throws, Hturn.
  - apply IH.
Qed.

(** Once the answer is a success, the task throws no [Error] of its own. *)
Lemma run_after_success (env : Env) (res : Response.t) :
  invalid_minimum (Number rt (Min_Customers env)) = false ->
  fetch w (requested rt env) = inr res ->
  Response.ok res = true ->
  forall m, fst (run rt w env) <> inl (Error m).
Proof.
  intros Hmin Hfetch Hok m.
  pose proof (run_valid rt w env Hmin) as Hrun.
  rewrite Hfetch, Hok in Hrun.
  destruct (Response.json res) as [reason|body]; [rewrite Hrun; discriminate|].
  destruct (for_outages rt w (outages body) [] _) as [[e|features] s] eqn:Hloop.
  - apply for_outages_throws in Hloop. subst e. rewrite Hrun. discriminate.
  - destruct (submit w (collection features)); rewrite Hrun; discriminate.
Qed.

End Throws.

(** C4. When the [Min Customers] value parses to NaN or to a number below
    zero, the run throws the error of line 129 and its whole trace is the
    line written by the [catch] block: no request was made and nothing was
    submitted.  In every other case the run does not throw that error. *)
Theorem invalid_minimum_fails_first (rt : Runtime) (w : World) (env : Env) :
  let minCustomers := Number rt (Min_Customers env) in
  (Js.isNaN minCustomers = true \/ Js.ltb minCustomers Js.zero = true ->
   run rt w env
   = (inl (Error "Invalid minimum customers value"),
      {| trace := [LogError "Error in ETL process: Invalid minimum customers value"];
         ticks := 0 |}))
  /\ (~ (Js.isNaN minCustomers = true \/ Js.ltb minCustomers Js.zero = true) ->
      fst (run rt w env) <> inl (Error "Invalid minimum customers value")).
Proof.
  intros minCustomers. split.
  - intros H. apply run_invalid. unfold invalid_minimum. fold minCustomers.
    apply orb_true_iff. exact H.
  - intros H.
    assert (invalid_minimum (Number rt (Min_Customers env)) = false) as Hmin.
    { unfold invalid_minimum. fold minCustomers.
      destruct (Js.isNaN minCustomers); [exfalso; auto|].
      destruct (Js.ltb minCustomers Js.zero); [exfalso; auto | reflexivity]. }
    pose proof (run_valid rt w env Hmin) as Hrun.
    destruct (fetch w (requested rt env)) as [reason|res] eqn:Hfetch;
      [rewrite Hrun; discriminate|].
    destruct (Response.ok res) eqn:Hok.
    + now apply (run_after_success rt w env res).
    + rewrite Hrun. cbn [fst]. discriminate.
Qed.

(** Scenario C of the specification, and the default minimum. *)
Lemma invalid_minimum_fails_first_witness :
  run Node.runtime Example.mixed_world (Example.env "-5" None None)
  = (inl (Error "Invalid minimum customers value"),
     {| trace := [LogError "Error in ETL process: Invalid minimum customers value"];
        ticks := 0 |})
  /\ fst (run Node.runtime Example.mixed_world (Example.env "0" None None))
     <> inl (Error "Invalid minimum customers value").
Proof.
  split.
  - destruct (invalid_minimum_fails_first Node.runtime Example.mixed_world
                (Example.env "-5" None None)) as (Hfails & _).
    apply Hfails. right. vm_compute. reflexivity.
  - destruct (invalid_minimum_fails_first Node.runtime Example.mixed_world
                (Example.env "0" None None)) as (_ & Hpasses).
    apply Hpasses. vm_compute. intros [H | H]; discriminate H.
Defined.

(** C5. When the request of a run is answered with a response that is not
    [ok], the run throws an error whose message carries the status code and
    the status text; its trace ends with the request and the line of the
    [catch] block, so nothing was submitted, and the clock was never read.
    When the response is [ok], the run throws no such error. *)
Theorem failed_fetch_fails_run (rt : Runtime) (w : World) (env : Env) (res : Response.t) :
  invalid_minimum (Number rt (Min_Customers env)) = false ->
  fetch w (requested rt env) = inr res ->
  let failure :=
    Error ("Failed to fetch data: " ++ Number_toString rt (Response.status res)
             ++ " " ++ Response.statusText res) in
  (Response.ok res = false ->
   run rt w env
   = (inl failure,
      {| trace := [ Log ("ok - Fetching power outages from " ++ requested rt env);
                    Fetched (requested rt env);
                    LogError ("Error in ETL process: " ++ message failure) ];
         ticks := 0 |}))
  /\ (Response.ok res = true ->
      forall details, fst (run rt w env) <> inl (Error ("Failed to fetch data: " ++ details))).
Proof.
  intros Hmin Hfetch failure. split.
  - intros Hok. pose proof (run_valid rt w env Hmin) as Hrun.
    rewrite Hfetch, Hok in Hrun. exact Hrun.
  - intros Hok details. now apply (run_after_success rt w env res).
Qed.

(** Scenario B of the specification. *)
Lemma failed_fetch_fails_run_witness :
  let w := Example.world Example.unavailable in
  let env := Example.env "0" None None in
  (Response.ok Example.unavailable = false ->
   run Node.runtime w env
   = (inl (Error "Failed to fetch data: 503 Service Unavailable"),
      {| trace := [ Log ("ok - Fetching power outages from " ++ requested Node.runtime env);
                    Fetched (requested Node.runtime env);
                    LogError ("Error in ETL process: "
                                ++ "Failed to fetch data: 503 Service Unavailable") ];
         ticks := 0 |}))
  /\ (Response.ok Example.unavailable = true ->
      forall details,
        fst (run Node.runtime w env) <> inl (Error ("Failed to fetch data: " ++ details))).
Proof.
  apply (failed_fetch_fails_run Node.runtime (Example.world Example.unavailable)
           (Example.env "0" None None) Example.unavailable).
  - vm_compute. reflexivity.
  - reflexivity.
Defined.

(** ** The request *)

Lemma append_not_empty (a b : string) (c : ascii) : a ++ String c b <> "".
Proof. destruct a; discriminate. Qed.

(** The serialization of at least one parameter is not the empty string. *)
Lemma toString_not_empty (p : string * string) (params : URLSearchParams.t) :
  URLSearchParams.toString (p :: params) <> "".
Proof.
  unfold URLSearchParams.toString. cbn [map String.concat].
  destruct (map _ params) as [|q qs].
  - apply append_not_empty.
  - rewrite append_assoc. apply append_not_empty.
Qed.

Lemma request_url_params (rt : Runtime) (env : Env) (minCustomers : Js.number) :
  request_url rt env minCustomers
  = API_URL env
      ++ match request_params rt env minCustomers with
         | [] => ""
         | _ :: _ => "?" ++ URLSearchParams.toString (request_params rt env minCustomers)
         end.
Proof.
  unfold request_url.
  destruct (request_params rt env minCustomers) as [|p params].
  - cbn. now rewrite append_nil_r.
  - pose proof (toString_not_empty p params) as Hne.
    destruct (URLSearchParams.toString (p :: params)); [congruence | reflexivity].
Qed.

(** C6, as stated, fails: a [Utility Filter] and an [Outage Type] that are
    set to the empty string append nothing; the request carries the minimum
    alone. *)
Lemma request_counterexample :
  let env := Example.env "100" (Some "") (Some "") in
  Utility_Filter env = Some ""
  /\ Outage_Type env = Some ""
  /\ request_params Node.runtime env (Number Node.runtime (Min_Customers env))
     = [("minCustomers", "100")]
  /\ requested Node.runtime env
     = "https://utils.tak.nz/power-outages/outages?minCustomers=100".
Proof. repeat split. Qed.

(** C6, amended. The parameters of the request are appended in the order
    [minCustomers], [utility], [outageType]; [minCustomers] is among them
    exactly when the parsed minimum is greater than zero, [utility] exactly
    when [Utility Filter] is set to a string that is not empty, and
    [outageType] exactly when [Outage Type] is set to a string that is not
    empty.  The URL is the base URL, followed by [?] and the serialized
    parameters when there is at least one; with a valid minimum it is the
    URL the run requests. *)
Theorem request_parameters (rt : Runtime) (w : World) (env : Env) :
  let minCustomers := Number rt (Min_Customers env) in
  let params := request_params rt env minCustomers in
  (forall value,
      In ("minCustomers", value) params
      <-> Js.ltb Js.zero minCustomers = true /\ value = Number_toString rt minCustomers)
  /\ (forall value,
         In ("utility", value) params <-> Utility_Filter env = Some value /\ value <> "")
  /\ (forall value,
         In ("outageType", value) params <-> Outage_Type env = Some value /\ value <> "")
  /\ (forall name value,
         In (name, value) params ->
         name = "minCustomers" \/ name = "utility" \/ name = "outageType")
  /\ requested rt env
     = API_URL env ++ match params with
                      | [] => ""
                      | _ => "?" ++ URLSearchParams.toString params
                      end
  /\ (invalid_minimum minCustomers = false ->
      exists rest,
        trace (snd (run rt w env))
        = Log ("ok - Fetching power outages from " ++ requested rt env)
            :: Fetched (requested rt env) :: rest).
Proof.
  intros minCustomers params.
  assert (forall name value,
             In (name, value) params <->
             (name = "minCustomers" /\ Js.ltb Js.zero minCustomers = true
              /\ value = Number_toString rt minCustomers)
             \/ (name = "utility" /\ Utility_Filter env = Some value /\ value <> "")
             \/ (name = "outageType" /\ Outage_Type env = Some value /\ value <> ""))
    as Hparams.
  { intros name value. subst params. unfold request_params, URLSearchParams.append,
      URLSearchParams.empty.
    destruct (Js.ltb Js.zero minCustomers);
      destruct (Utility_Filter env) as [[|c u]|];
      destruct (Outage_Type env) as [[|c' o]|];
      cbn [Js.if_truthy app In]; split; intros H;
      repeat match goal with
             | H : _ \/ _ |- _ => destruct H
             | H : _ /\ _ |- _ => destruct H
             | H : (_, _) = (_, _) |- _ => inversion H; clear H; subst
             | H : Some _ = Some _ |- _ => inversion H; clear H; subst
             | H : False |- _ => contradiction
             end;
      try discriminate; try congruence;
      try (left; repeat split; congruence);
      try (right; left; repeat split; congruence);
      try (right; right; repeat split; congruence);
      auto 6. }
  split; [|split; [|split; [|split; [|split]]]].
  - intros value. split.
    + intros H. apply Hparams in H as [(_ & H) | [(H & _) | (H & _)]];
        [assumption | discriminate H | discriminate H].
    + intros (H1 & H2). apply Hparams. left. now repeat split.
  - intros value. split.
    + intros H. apply Hparams in H as [(H & _) | [(_ & H) | (H & _)]];
        [discriminate H | assumption | discriminate H].
    + intros (H1 & H2). apply Hparams. right. left. now repeat split.
  - intros value. split.
    + intros H. apply Hparams in H as [(H & _) | [(H & _) | (_ & H)]];
        [discriminate H | discriminate H | assumption].
    + intros (H1 & H2). apply Hparams. right. right. now repeat split.
  - intros name value H. apply Hparams in H. tauto.
  - unfold requested. apply request_url_params.
  - intros Hmin. pose proof (run_valid rt w env Hmin) as Hrun.
    destruct (fetch w (requested rt env)) as [reason|res];
      [rewrite Hrun; eexists; reflexivity|].
    destruct (Response.ok res); [|rewrite Hrun; eexists; reflexivity].
    destruct (Response.json res) as [reason|body]; [rewrite Hrun; eexists; reflexivity|].
    destruct (for_outages rt w (outages body) [] _) as [[e|features] s];
      [rewrite Hrun; eexists; reflexivity|].
    destruct (submit w (collection features)); rewrite Hrun; eexists; reflexivity.
Qed.

(** The request of the example: a minimum of 100, a utility filter, and an
    outage type set to the empty string. *)
Lemma request_parameters_witness :
  request_params Node.runtime Example.mixed_env
    (Number Node.runtime (Min_Customers Example.mixed_env))
  = [("minCustomers", "100"); ("utility", "ORION_NZ")]
  /\ requested Node.runtime Example.mixed_env
     = "https://utils.tak.nz/power-outages/outages?minCustomers=100&utility=ORION_NZ"
  /\ (In ("minCustomers", "100")
         (request_params Node.runtime Example.mixed_env
            (Number Node.runtime (Min_Customers Example.mixed_env)))
      /\ In ("utility", "ORION_NZ")
           (request_params Node.runtime Example.mixed_env
              (Number Node.runtime (Min_Customers Example.mixed_env)))).
Proof.
  destruct (request_parameters Node.runtime Example.mixed_world Example.mixed_env)
    as (Hminimum & Hutility & _).
  split; [reflexivity|]. split; [reflexivity|]. split.
  - apply Hminimum. split; reflexivity.
  - apply Hutility. split; [reflexivity | discriminate].
Defined.

(** ** The remarks *)

(** C1, as stated, fails.  With every optional field present and not empty
    the remarks have 13 lines, not 12; with every optional field present and
    empty they have 8; and a line feed inside a field adds a line. *)
Lemma remarks_counterexample :
  (emits Node.runtime Example.mixed_world Example.mixed_env Example.mixed 1
     Example.full_outage Example.full_feature
   /\ all_optional_present Example.full_outage
   /\ List.length (lines (Properties.remarks (Feature.properties Example.full_feature)))
      = 13)
  /\ (emits Node.runtime Example.mixed_world Example.mixed_env Example.mixed 2
        Example.blank_outage Example.blank_feature
      /\ all_optional_present Example.blank_outage
      /\ List.length (lines (Properties.remarks (Feature.properties Example.blank_feature)))
         = 8)
  /\ (emits Node.runtime Example.mixed_world Example.mixed_env Example.mixed 3
        Example.two_line_cause Example.two_line_feature
      /\ all_optional_present Example.two_line_cause
      /\ List.length
           (lines (Properties.remarks (Feature.properties Example.two_line_feature)))
         = 14).
Proof.
  split; [|split].
  all: split; [emitted_in Example.mixed_collection|].
  all: split; [unfold all_optional_present; cbn; repeat split; discriminate|].
  all: vm_compute; reflexivity.
Qed.

(** C1, amended. For an outage whose optional fields are all present and not
    empty (the estimate, the type, the crew status, the feeder and the
    aggregation type) and whose streets are not empty, the remarks of the
    emitted feature are 13 entries joined by single line feeds, in the order
    Utility, Customers Affected, Status, Cause, Region, Areas, Streets,
    Outage Start, Estimated Restoration, Type, Crew Status, Feeder,
    Aggregated; when no entry contains a line feed, the remarks string has
    exactly these 13 lines. *)
Theorem remarks_all_present (rt : Runtime) (w : World) (env : Env)
    (body : PowerOutagesResponse) (i : nat) (outage : PowerOutage) (f : Feature.t)
    (er kind crew fd agg : string) :
  emits rt w env body i outage f ->
  filled (estimatedRestoration outage) er ->
  filled (outageType outage) kind ->
  filled (crewStatus outage) crew ->
  filled (metadata_field feeder outage) fd ->
  filled (metadata_field aggregationType outage) agg ->
  streets (location outage) <> [] ->
  let entries :=
    [ "Utility: " ++ Utility.name (utility outage);
      "Customers Affected: " ++ Number_toString rt (customersAffected outage);
      "Status: " ++ status outage;
      "Cause: " ++ cause outage;
      "Region: " ++ region outage;
      "Areas: " ++ match Js.join ", " (areas (location outage)) with
                   | "" => "Unknown"
                   | joined => joined
                   end;
      "Streets: " ++ Js.join ", " (streets (location outage));
      "Outage Start: " ++ Date_toLocaleString rt (Date_parse rt (outageStart outage)) ++ " NZT";
      "Estimated Restoration: " ++ Date_toLocaleString rt (Date_parse rt er) ++ " NZT";
      "Type: " ++ kind;
      "Crew Status: " ++ crew;
      "Feeder: " ++ fd;
      "Aggregated: " ++ render_count rt (metadata_field outageCount outage) ++ " outages" ] in
  Properties.remarks (Feature.properties f) = Js.join Js.LF entries
  /\ (Forall (fun entry => Js.occurs "010" entry = false) entries ->
      lines (Properties.remarks (Feature.properties f)) = entries
      /\ List.length (lines (Properties.remarks (Feature.properties f))) = 13).
Proof.
  intros H (Her & Her') (Hkind & Hkind') (Hcrew & Hcrew') (Hfd & Hfd') (Hagg & Hagg')
    Hstreets entries.
  apply emits_turn, feature_inv in H as (t & iso & _ & _ & ->).
  cbn [Feature.properties Properties.remarks].
  assert (remarks rt outage = entries) as ->.
  { unfold remarks, entries, local_time. rewrite Her, Hkind, Hcrew, Hfd, Hagg.
    destruct er; [congruence|]. destruct kind; [congruence|].
    destruct crew; [congruence|]. destruct fd; [congruence|].
    destruct agg; [congruence|].
    destruct (streets (location outage)) as [|street more] eqn:Hs; [congruence|].
    cbn [Js.if_truthy List.concat app].
    destruct (Js.join ", " (areas (location outage))); reflexivity. }
  split; [reflexivity|].
  intros Hclean. unfold lines, Js.LF.
  rewrite split_join by (assumption || discriminate).
  split; reflexivity.
Qed.

Lemma remarks_all_present_witness :
  let entries :=
    [ "Utility: Orion Group"; "Customers Affected: 120"; "Status: active";
      "Cause: Tree contact"; "Region: Canterbury"; "Areas: Riccarton, Ilam";
      "Streets: Main Road"; "Outage Start: 15/01/2024, 11:30:00 pm NZT";
      "Estimated Restoration: 16/01/2024, 3:00:00 am NZT"; "Type: unplanned";
      "Crew Status: Crew on site"; "Feeder: RIC-11"; "Aggregated: 3 outages" ] in
  Properties.remarks (Feature.properties Example.full_feature) = Js.join Js.LF entries
  /\ (Forall (fun entry => Js.occurs "010" entry = false) entries ->
      lines (Properties.remarks (Feature.properties Example.full_feature)) = entries
      /\ List.length (lines (Properties.remarks (Feature.properties Example.full_feature)))
         = 13).
Proof.
  apply (remarks_all_present Node.runtime Example.mixed_world Example.mixed_env
           Example.mixed 1 Example.full_outage Example.full_feature
           "2024-01-15T14:00:00Z" "unplanned" "Crew on site" "RIC-11" "feeder").
  - emitted_in Example.mixed_collection.
  - split; [reflexivity | discriminate].
  - split; [reflexivity | discriminate].
  - split; [reflexivity | discriminate].
  - split; [reflexivity | discriminate].
  - split; [reflexivity | discriminate].
  - discriminate.
Defined.

(** ** Empty optional strings *)

Lemma no_line_segments (label : string) (segments : list (list string)) :
  Forall (no_line label) segments -> no_line label (List.concat segments).
Proof. intros H. unfold no_line. now apply Forall_concat. Qed.

(** Solves [no_line label segment] for a segment of the array [remarks]. *)
Ltac segment :=
  unfold no_line, Js.if_truthy;
  repeat match goal with
         | |- Forall _ (match ?x with _ => _ end) => destruct x
         end;
  repeat constructor.

Ltac segments :=
  apply no_line_segments; repeat (apply Forall_cons; [segment|]); apply Forall_nil.

Section Blank.

Variable rt : Runtime.

Lemma no_estimate_line (outage : PowerOutage) :
  Js.truthy (estimatedRestoration outage) = false ->
  no_line "Estimated Restoration: " (remarks rt outage).
Proof.
  intros H. unfold remarks.
  destruct (estimatedRestoration outage) as [[|c er]|]; try discriminate; segments.
Qed.

Lemma no_type_line (outage : PowerOutage) :
  Js.truthy (outageType outage) = false -> no_line "Type: " (remarks rt outage).
Proof.
  intros H. unfold remarks.
  destruct (outageType outage) as [[|c v]|]; try discriminate; segments.
Qed.

Lemma no_crew_line (outage : PowerOutage) :
  Js.truthy (crewStatus outage) = false -> no_line "Crew Status: " (remarks rt outage).
Proof.
  intros H. unfold remarks.
  destruct (crewStatus outage) as [[|c v]|]; try discriminate; segments.
Qed.

Lemma no_feeder_line (outage : PowerOutage) :
  Js.truthy (metadata_field feeder outage) = false ->
  no_line "Feeder: " (remarks rt outage).
Proof.
  intros H. unfold remarks.
  destruct (metadata_field feeder outage) as [[|c v]|]; try discriminate; segments.
Qed.

Lemma no_aggregated_line (outage : PowerOutage) :
  Js.truthy (metadata_field aggregationType outage) = false ->
  no_line "Aggregated: " (remarks rt outage).
Proof.
  intros H. unfold remarks.
  destruct (metadata_field aggregationType outage) as [[|c v]|]; try discriminate;
    segments.
Qed.

Lemma if_truthy_blank {A : Type} (v : option string) (yes : string -> A) (no : A) :
  Js.if_truthy (blank_as_absent v) yes no = Js.if_truthy v yes no.
Proof. now destruct v as [[|c s]|]. Qed.

Lemma metadata_field_blank (outage : PowerOutage) :
  metadata_field feeder (without_blanks outage)
  = blank_as_absent (metadata_field feeder outage)
  /\ metadata_field aggregationType (without_blanks outage)
     = blank_as_absent (metadata_field aggregationType outage)
  /\ metadata_field outageCount (without_blanks outage)
     = metadata_field outageCount outage.
Proof. unfold metadata_field, without_blanks. cbn. now destruct (metadata outage). Qed.

(** The array [remarks] does not tell an empty optional string from an
    absent one. *)
Lemma remarks_without_blanks (outage : PowerOutage) :
  remarks rt (without_blanks outage) = remarks rt outage.
Proof.
  unfold remarks.
  destruct (metadata_field_blank outage) as (-> & -> & ->).
  cbn [without_blanks outageId utility region regionCode outageStart estimatedRestoration
         cause status outageType customersAffected crewStatus location].
  now rewrite !if_truthy_blank.
Qed.

(** Nor does the computation of [stale]. *)
Lemma stale_without_blanks (w : World) (outage : PowerOutage) (s : state) :
  stale rt w (without_blanks outage) s = stale rt w outage s.
Proof. unfold stale. cbn [without_blanks estimatedRestoration]. now rewrite if_truthy_blank. Qed.

End Blank.

(** C10. An optional string that is present and empty is treated as an
    absent one: the remarks and the expiry computed for an outage are those
    computed for the outage with its empty optional strings removed.  When
    the estimate is the empty string, no entry of the remarks begins with
    the Estimated Restoration label and the expiry of the emitted feature is
    the clock reading of its turn plus one hour; an empty outage type, crew
    status, feeder or aggregation type leaves no entry with its label
    either. *)
Theorem blank_is_absent (rt : Runtime) (w : World) (outage : PowerOutage) :
  remarks rt outage = remarks rt (without_blanks outage)
  /\ (forall s, stale rt w outage s = stale rt w (without_blanks outage) s)
  /\ (estimatedRestoration outage = Some "" ->
      no_line "Estimated Restoration: " (remarks rt outage)
      /\ forall env body i f,
           emits rt w env body i outage f ->
           Properties.remarks (Feature.properties f) = Js.join Js.LF (remarks rt outage)
           /\ Properties.stale (Feature.properties f)
              = Date_toISOString rt
                  (Date_now w (defaults (firstn i (outages body))) + 3600000))
  /\ (outageType outage = Some "" -> no_line "Type: " (remarks rt outage))
  /\ (crewStatus outage = Some "" -> no_line "Crew Status: " (remarks rt outage))
  /\ (metadata_field feeder outage = Some "" -> no_line "Feeder: " (remarks rt outage))
  /\ (metadata_field aggregationType outage = Some "" ->
      no_line "Aggregated: " (remarks rt outage)).
Proof.
  split; [now rewrite remarks_without_blanks|].
  split; [intros s; now rewrite stale_without_blanks|].
  split; [|split; [|split; [|split]]].
  - intros Her. split; [apply no_estimate_line; now rewrite Her|].
    intros env body i f H.
    apply emits_turn, feature_inv in H as (t & iso & _ & Hstale & ->).
    cbn [Feature.properties Properties.remarks Properties.stale].
    split; [reflexivity|].
    rewrite stale_default in Hstale by now rewrite Her.
    apply toISOString_inv in Hstale as (t' & Hclip & -> & _).
    apply Date_of_ms_inv in Hclip. now subst t'.
  - intros Hv. apply no_type_line. now rewrite Hv.
  - intros Hv. apply no_crew_line. now rewrite Hv.
  - intros Hv. apply no_feeder_line. now rewrite Hv.
  - intros Hv. apply no_aggregated_line. now rewrite Hv.
Qed.

(** The third outage of the example: every optional string is empty. *)
Lemma blank_is_absent_witness :
  Properties.stale (Feature.properties Example.blank_feature) = "2024-01-15T13:00:00.001Z"
  /\ Properties.remarks (Feature.properties Example.blank_feature)
     = Js.join Js.LF
         [ "Utility: Orion Group"; "Customers Affected: 3"; "Status: active";
           "Cause: Unknown"; "Region: Canterbury"; "Areas: , Ilam";
           "Streets: Main Road"; "Outage Start: 15/01/2024, 11:30:00 pm NZT" ]
  /\ no_line "Estimated Restoration: " (remarks Node.runtime Example.blank_outage).
Proof.
  destruct (blank_is_absent Node.runtime Example.mixed_world Example.blank_outage)
    as (_ & _ & Hestimate & _).
  destruct (Hestimate eq_refl) as (Hnone & Hemitted).
  destruct (Hemitted Example.mixed_env Example.mixed 2 Example.blank_feature)
    as (Hremarks & Hstale).
  - emitted_in Example.mixed_collection.
  - split; [exact Hstale|]. split; [exact Hremarks | exact Hnone].
Defined.

(** * Further properties of [control] *)

(** ** Invalid timestamps *)

Section Abort.

Variable rt : Runtime.
Variable w : World.

(** The turn of an outage with an invalid timestamp throws. *)
Lemma feature_invalid (outage : PowerOutage) (s : state) :
  timestamp_invalid rt outage ->
  exists s', feature rt w outage s = (inl (RangeError "Invalid time value"), s').
Proof.
  intros Hbad.
  destruct (feature rt w outage s) as [[e|f] s'] eqn:Hturn.
  - apply feature_throws in Hturn as Hrange. subst e. now exists s'.
  - exfalso. apply feature_inv in Hturn as (t & iso & Hstart & Hstale & _).
    destruct Hbad as [Hnone | (er & Her & Hne & Hnone)]; [congruence|].
    rewrite (stale_estimate rt w outage er s Her Hne), Hnone in Hstale.
    discriminate Hstale.
Qed.

(** One invalid timestamp anywhere in the report stops the loop. *)
Lemma for_outages_invalid (outs : list PowerOutage) :
  Exists (timestamp_invalid rt) outs ->
  forall acc s,
    exists s', for_outages rt w outs acc s = (inl (RangeError "Invalid time value"), s').
Proof.
  induction 1 as [outage outs Hbad | outage outs _ IH]; intros acc s; simpl; unfold bind.
  - destruct (feature_invalid outage s Hbad) as (s' & ->). now exists s'.
  - destruct (feature rt w outage s) as [[e|f] s1] eqn:Hturn.
    + apply feature_throws in Hturn. subst e. now exists s1.
    + apply IH.
Qed.

End Abort.

(** X1. A single outage with an invalid timestamp (a start that is no date,
    or an estimate that is not empty and is no date) fails the whole run:
    [toISOString] throws its [RangeError], the [catch] block logs it, and no
    collection is submitted, whatever the other outages of the report are. *)
Theorem invalid_timestamp_aborts (rt : Runtime) (w : World) (env : Env)
    (res : Response.t) (body : PowerOutagesResponse) :
  invalid_minimum (Number rt (Min_Customers env)) = false ->
  fetch w (requested rt env) = inr res ->
  Response.ok res = true ->
  Response.json res = inr body ->
  Exists (timestamp_invalid rt) (outages body) ->
  fst (run rt w env) = inl (RangeError "Invalid time value")
  /\ trace (snd (run rt w env))
     = [ Log ("ok - Fetching power outages from " ++ requested rt env);
         Fetched (requested rt env);
         LogError "Error in ETL process: Invalid time value" ]
  /\ forall fc, ~ submitted rt w env fc.
Proof.
  intros Hmin Hfetch Hok Hjson Hbad.
  pose proof (run_valid rt w env Hmin) as Hrun.
  rewrite Hfetch, Hok, Hjson in Hrun.
  destruct (for_outages_invalid rt w (outages body) Hbad []
              {| trace := request_trace rt env; ticks := 0 |}) as (s' & Hloop).
  rewrite Hloop in Hrun.
  split; [now rewrite Hrun|].
  split; [now rewrite Hrun|].
  intros fc Hsub. unfold submitted in Hsub. rewrite Hrun in Hsub. trace_cases Hsub.
Qed.

Lemma invalid_timestamp_aborts_witness :
  fst (run Node.runtime Cases.undated_world Example.later_env)
  = inl (RangeError "Invalid time value")
  /\ trace (snd (run Node.runtime Cases.undated_world Example.later_env))
     = [ Log "ok - Fetching power outages from https://utils.tak.nz/power-outages/outages";
         Fetched "https://utils.tak.nz/power-outages/outages";
         LogError "Error in ETL process: Invalid time value" ]
  /\ forall fc, ~ submitted Node.runtime Cases.undated_world Example.later_env fc.
Proof.
  apply (invalid_timestamp_aborts Node.runtime Cases.undated_world Example.later_env
           (Example.success [Example.plain_outage; Cases.undated_outage; Example.full_outage])
           (Example.report [Example.plain_outage; Cases.undated_outage; Example.full_outage])).
  - vm_compute. reflexivity.
  - reflexivity.
  - reflexivity.
  - reflexivity.
  - apply Exists_cons_tl, Exists_cons_hd. left. vm_compute. reflexivity.
Defined.

(** ** The shape of a trace *)

(** X2. A run that fails writes exactly one [console.error] line, as the
    last entry of its trace, carrying the message of the very error it then
    throws; a run that succeeds writes none. *)
Theorem failure_logged_once (rt : Runtime) (w : World) (env : Env) :
  match fst (run rt w env) with
  | inl e =>
      exists before,
        trace (snd (run rt w env))
        = (before ++ [LogError ("Error in ETL process: " ++ message e)])%list
        /\ filter is_error_line before = []
  | inr _ => filter is_error_line (trace (snd (run rt w env))) = []
  end.
Proof.
  destruct (invalid_minimum (Number rt (Min_Customers env))) eqn:Hmin.
  - rewrite (run_invalid rt w env Hmin). now exists [].
  - pose proof (run_valid rt w env Hmin) as Hrun.
    destruct (fetch w (requested rt env)) as [reason|res];
      [rewrite Hrun; now exists (request_trace rt env)|].
    destruct (Response.ok res); [|rewrite Hrun; now exists (request_trace rt env)].
    destruct (Response.json res) as [reason|body];
      [rewrite Hrun; now exists (request_trace rt env)|].
    destruct (for_outages rt w (outages body) [] _) as [[e|features] s];
      [rewrite Hrun; now exists (request_trace rt env)|].
    destruct (submit w (collection features)) as [reason|]; rewrite Hrun;
      [|reflexivity].
    now exists (request_trace rt env
                  ++ [Log (fetched_line rt body features); Submitted (collection features)])%list.
Qed.

(** X3. A run issues at most one request and at most one submission, and a
    submission comes only after the request: there is no retry and no
    partial or repeated hand-off. *)
Theorem one_request_one_submission (rt : Runtime) (w : World) (env : Env) :
  List.length (filter is_fetch (trace (snd (run rt w env)))) <= 1
  /\ List.length (filter is_submit (trace (snd (run rt w env)))) <= 1
  /\ forall i fc,
       nth_error (trace (snd (run rt w env))) i = Some (Submitted fc) ->
       i = 3 /\ nth_error (trace (snd (run rt w env))) 1 = Some (Fetched (requested rt env)).
Proof.
  destruct (invalid_minimum (Number rt (Min_Customers env))) eqn:Hmin.
  - rewrite (run_invalid rt w env Hmin). cbn. repeat split; try lia.
    + exfalso. destruct i as [|[|i]]; discriminate.
    + exfalso. destruct i as [|[|i]]; discriminate.
  - pose proof (run_valid rt w env Hmin) as Hrun.
    destruct (fetch w (requested rt env)) as [reason|res].
    { rewrite Hrun. cbn. repeat split; try lia;
        exfalso; destruct i as [|[|[|[|i]]]]; discriminate. }
    destruct (Response.ok res).
    2:{ rewrite Hrun. cbn. repeat split; try lia;
          exfalso; destruct i as [|[|[|[|i]]]]; discriminate. }
    destruct (Response.json res) as [reason|body].
    { rewrite Hrun. cbn. repeat split; try lia;
        exfalso; destruct i as [|[|[|[|i]]]]; discriminate. }
    destruct (for_outages rt w (outages body) [] _) as [[e|features] s].
    { rewrite Hrun. cbn. repeat split; try lia;
        exfalso; destruct i as [|[|[|[|i]]]]; discriminate. }
    destruct (submit w (collection features)) as [reason|]; rewrite Hrun; cbn;
      repeat split; try lia;
      destruct i as [|[|[|[|[|[|i]]]]]]; try discriminate; reflexivity.
Qed.

(** ** Rejections of the collaborators *)

(** X4. With a valid configuration, a rejection by a collaborator is the
    error of the run.  When [fetch] rejects, or when [res.json()] rejects on
    a successful answer, the run throws that rejection before the loop: the
    clock is not read and nothing is submitted.  When [submit] rejects, the
    run throws that rejection after the collection was handed over. *)
Theorem rejections_propagate (rt : Runtime) (w : World) (env : Env) :
  invalid_minimum (Number rt (Min_Customers env)) = false ->
  (forall reason,
      fetch w (requested rt env) = inl reason ->
      run rt w env
      = (inl (Rejected TheFetch reason),
         {| trace := [ Log ("ok - Fetching power outages from " ++ requested rt env);
                       Fetched (requested rt env);
                       LogError ("Error in ETL process: " ++ reason) ];
            ticks := 0 |}))
  /\ (forall res reason,
         fetch w (requested rt env) = inr res ->
         Response.ok res = true ->
         Response.json res = inl reason ->
         run rt w env
         = (inl (Rejected TheBody reason),
            {| trace := [ Log ("ok - Fetching power outages from " ++ requested rt env);
                          Fetched (requested rt env);
                          LogError ("Error in ETL process: " ++ reason) ];
               ticks := 0 |}))
  /\ (forall fc reason,
         submitted rt w env fc ->
         submit w fc = Some reason ->
         fst (run rt w env) = inl (Rejected TheSink reason)
         /\ exists line,
              trace (snd (run rt w env))
              = [ Log ("ok - Fetching power outages from " ++ requested rt env);
                  Fetched (requested rt env);
                  Log line;
                  Submitted fc;
                  LogError ("Error in ETL process: " ++ reason) ]).
Proof.
  intros Hmin. pose proof (run_valid rt w env Hmin) as Hrun.
  split; [|split].
  - intros reason Hfetch. rewrite Hfetch in Hrun. exact Hrun.
  - intros res reason Hfetch Hok Hjson. rewrite Hfetch, Hok, Hjson in Hrun. exact Hrun.
  - intros fc reason Hsub Hrefuse.
    destruct (submitted_inv rt w env fc Hsub)
      as (_ & res & body & s & Hfetch & Hok & Hjson & Hloop & Hfc).
    rewrite Hfetch, Hok, Hjson, Hloop, <- Hfc, Hrefuse in Hrun.
    rewrite Hrun. split; [reflexivity|].
    now exists (fetched_line rt body (FeatureCollection.features fc)).
Qed.

Lemma rejections_propagate_witness :
  run Node.runtime Cases.offline Example.later_env
  = (inl (Rejected TheFetch "fetch failed"),
     {| trace := [ Log ("ok - Fetching power outages from "
                          ++ requested Node.runtime Example.later_env);
                   Fetched (requested Node.runtime Example.later_env);
                   LogError "Error in ETL process: fetch failed" ];
        ticks := 0 |})
  /\ run Node.runtime (Example.world Cases.garbled) Example.later_env
     = (inl (Rejected TheBody "Unexpected end of JSON input"),
        {| trace := [ Log ("ok - Fetching power outages from "
                             ++ requested Node.runtime Example.later_env);
                      Fetched (requested Node.runtime Example.later_env);
                      LogError "Error in ETL process: Unexpected end of JSON input" ];
           ticks := 0 |})
  /\ fst (run Node.runtime Cases.refusing Example.later_env)
     = inl (Rejected TheSink "submission refused").
Proof.
  split; [|split].
  - destruct (rejections_propagate Node.runtime Cases.offline Example.later_env)
      as (Hfetch & _); [vm_compute; reflexivity|].
    apply Hfetch. reflexivity.
  - destruct (rejections_propagate Node.runtime (Example.world Cases.garbled)
                Example.later_env) as (_ & Hbody & _); [vm_compute; reflexivity|].
    apply (Hbody Cases.garbled); reflexivity.
  - destruct (rejections_propagate Node.runtime Cases.refusing Example.later_env)
      as (_ & _ & Hsink); [vm_compute; reflexivity|].
    apply (Hsink Cases.refused_collection "submission refused").
    + unfold submitted. in_trace.
    + reflexivity.
Defined.

(** ** Empty reports and the clock *)

(** X5. A report without outages is still submitted: the run hands over the
    collection with no feature, without reading the clock, and succeeds when
    the sink accepts it. *)
Theorem empty_report_submitted (rt : Runtime) (w : World) (env : Env)
    (res : Response.t) (body : PowerOutagesResponse) :
  invalid_minimum (Number rt (Min_Customers env)) = false ->
  fetch w (requested rt env) = inr res ->
  Response.ok res = true ->
  Response.json res = inr body ->
  outages body = [] ->
  submitted rt w env
    {| FeatureCollection.type := "FeatureCollection"; FeatureCollection.features := [] |}
  /\ ticks (snd (run rt w env)) = 0
  /\ (submit w {| FeatureCollection.type := "FeatureCollection";
                  FeatureCollection.features := [] |} = None ->
      fst (run rt w env) = inr tt).
Proof.
  intros Hmin Hfetch Hok Hjson Hempty.
  pose proof (run_valid rt w env Hmin) as Hrun.
  rewrite Hfetch, Hok, Hjson, Hempty in Hrun. cbn [for_outages ret] in Hrun.
  unfold submitted. fold (collection []).
  destruct (submit w (collection [])) as [reason|]; rewrite Hrun;
    (split; [unfold request_trace; cbn [app In trace snd]; tauto|]);
    (split; [reflexivity|]); [discriminate | reflexivity].
Qed.

Lemma empty_report_submitted_witness :
  submitted Node.runtime Cases.empty_world Example.later_env (collection [])
  /\ ticks (snd (run Node.runtime Cases.empty_world Example.later_env)) = 0
  /\ (submit Cases.empty_world (collection []) = None ->
      fst (run Node.runtime Cases.empty_world Example.later_env) = inr tt).
Proof.
  apply (empty_report_submitted Node.runtime Cases.empty_world Example.later_env
           (Example.success []) (Example.report [])).
  - vm_compute. reflexivity.
  - reflexivity.
  - reflexivity.
  - reflexivity.
  - reflexivity.
Defined.

(** X6. A run that submitted read the clock once for every outage of the
    report that has no estimate or an empty one, and never for an outage
    with an estimate. *)
Theorem clock_read_per_default (rt : Runtime) (w : World) (env : Env)
    (body : PowerOutagesResponse) (fc : FeatureCollection.t) :
  fetched_report rt w env = Some body ->
  submitted rt w env fc ->
  ticks (snd (run rt w env))
  = List.length
      (filter (fun outage => negb (Js.truthy (estimatedRestoration outage))) (outages body)).
Proof.
  intros Hbody Hsub.
  destruct (submitted_inv rt w env fc Hsub)
    as (Hmin & res & body' & s & Hfetch & Hok & Hjson & Hloop & Hfc).
  assert (body' = body) as ->
    by (unfold fetched_report in Hbody; rewrite Hfetch, Hjson in Hbody; congruence).
  pose proof (run_valid rt w env Hmin) as Hrun.
  rewrite Hfetch, Hok, Hjson, Hloop in Hrun.
  apply for_outages_inv in Hloop as (Hticks & _). cbn in Hticks.
  destruct (submit w (collection (FeatureCollection.features fc)));
    rewrite Hrun; exact Hticks.
Qed.

Lemma clock_read_per_default_witness :
  ticks (snd (run Node.runtime Example.mixed_world Example.mixed_env)) = 2.
Proof.
  apply (clock_read_per_default Node.runtime Example.mixed_world Example.mixed_env
           Example.mixed Example.mixed_collection).
  - vm_compute. reflexivity.
  - unfold submitted. in_trace.
Defined.

(** ** The other fields of a feature *)

(** X7. The [time] and [start] of an emitted feature are one and the same
    string, the ISO rendering of the instant parsed from [outageStart]; in
    particular no emitted feature has a start that failed to parse. *)
Theorem time_and_start_of_emitted (rt : Runtime) (w : World) (env : Env)
    (body : PowerOutagesResponse) (i : nat) (outage : PowerOutage) (f : Feature.t) :
  emits rt w env body i outage f ->
  exists t,
    Date_parse rt (outageStart outage) = Some t
    /\ Properties.time (Feature.properties f) = Date_toISOString rt t
    /\ Properties.start (Feature.properties f) = Date_toISOString rt t.
Proof.
  intros H. apply emits_turn, feature_inv in H as (t & iso & Hstart & _ & ->).
  now exists t.
Qed.

Lemma time_and_start_of_emitted_witness :
  exists t,
    Date_parse Node.runtime (outageStart Example.full_outage) = Some t
    /\ Properties.time (Feature.properties Example.full_feature)
       = Date_toISOString Node.runtime t
    /\ Properties.start (Feature.properties Example.full_feature)
       = Date_toISOString Node.runtime t.
Proof.
  apply (time_and_start_of_emitted Node.runtime Example.mixed_world Example.mixed_env
           Example.mixed 1).
  emitted_in Example.mixed_collection.
Defined.

(** X8. Every emitted feature is a GeoJSON point whose coordinates are the
    longitude followed by the latitude of the outage, unchanged, and carries
    the fixed type tag and the power-outage icon; the collection itself is
    tagged as a feature collection. *)
Theorem geometry_and_tags_of_emitted (rt : Runtime) (w : World) (env : Env)
    (body : PowerOutagesResponse) (i : nat) (outage : PowerOutage) (f : Feature.t) :
  emits rt w env body i outage f ->
  Feature.geometry f
  = {| Geometry.type := "Point";
       Geometry.coordinates := [ longitude (coordinates (location outage));
                                 latitude (coordinates (location outage)) ] |}
  /\ Feature.type f = "Feature"
  /\ Properties.type (Feature.properties f) = "a-f-X-i"
  /\ Properties.icon (Feature.properties f)
     = "bb4df0a6-ca8d-4ba8-bb9e-3deb97ff015e:Incidents/INC.04.PowerOutage"
  /\ forall fc, submitted rt w env fc -> FeatureCollection.type fc = "FeatureCollection".
Proof.
  intros H. apply emits_turn, feature_inv in H as (t & iso & _ & _ & ->).
  repeat split.
  intros fc Hsub. apply submitted_inv in Hsub as (_ & _ & _ & _ & _ & _ & _ & _ & ->).
  reflexivity.
Qed.

Lemma geometry_and_tags_of_emitted_witness :
  Feature.geometry Example.plain_feature
  = {| Geometry.type := "Point";
       Geometry.coordinates := [Js.of_Z 175; Js.of_Z (-37)] |}
  /\ Feature.type Example.plain_feature = "Feature"
  /\ Properties.type (Feature.properties Example.plain_feature) = "a-f-X-i"
  /\ Properties.icon (Feature.properties Example.plain_feature)
     = "bb4df0a6-ca8d-4ba8-bb9e-3deb97ff015e:Incidents/INC.04.PowerOutage"
  /\ forall fc,
       submitted Node.runtime Example.mixed_world Example.mixed_env fc ->
       FeatureCollection.type fc = "FeatureCollection".
Proof.
  apply (geometry_and_tags_of_emitted Node.runtime Example.mixed_world Example.mixed_env
           Example.mixed 0 Example.plain_outage).
  emitted_in Example.mixed_collection.
Defined.

(** X9. The feature of an outage with an estimate that is not empty does not
    depend on the clock, the network, the configuration or the position in
    the report: two runs on the same runtime emit the very same feature for
    it.  Only the default expiry makes a feature vary from run to run. *)
Theorem feature_with_estimate_stable (rt : Runtime) (w w' : World) (env env' : Env)
    (body body' : PowerOutagesResponse) (i j : nat) (outage : PowerOutage)
    (f f' : Feature.t) :
  emits rt w env body i outage f ->
  emits rt w' env' body' j outage f' ->
  Js.truthy (estimatedRestoration outage) = true ->
  f = f'.
Proof.
  intros H H' Hset.
  apply emits_turn, feature_inv in H as (t & iso & Hstart & Hstale & ->).
  apply emits_turn, feature_inv in H' as (t' & iso' & Hstart' & Hstale' & ->).
  destruct (estimatedRestoration outage) as [[|c er]|] eqn:Her; try discriminate.
  rewrite (stale_estimate rt w outage (String c er)) in Hstale
    by (assumption || discriminate).
  rewrite (stale_estimate rt w' outage (String c er)) in Hstale'
    by (assumption || discriminate).
  apply toISOString_inv in Hstale as (u & Hu & -> & _).
  apply toISOString_inv in Hstale' as (u' & Hu' & -> & _).
  congruence.
Qed.

Lemma feature_with_estimate_stable_witness :
  Example.full_feature = Cases.full_feature_later.
Proof.
  apply (feature_with_estimate_stable Node.runtime Example.mixed_world Example.later_world
           Example.mixed_env Example.later_env
           Example.mixed (Example.report [Example.full_outage; Example.plain_outage])
           1 0 Example.full_outage).
  - emitted_in Example.mixed_collection.
  - emitted_in Example.later_collection.
  - reflexivity.
Defined.

(** ** The remarks of any outage *)

(** X10. The remarks of any outage have seven entries (Utility, Customers
    Affected, Status, Cause, Region, Areas, Outage Start) plus one for each
    optional item that is there: non-empty streets, and an estimate, type,
    crew status, feeder and aggregation type that are set and not empty.
    The first five entries are fixed, and the Outage Start entry follows the
    Areas entry or, when there is one, the Streets entry. *)
Theorem remarks_length (rt : Runtime) (outage : PowerOutage) :
  List.length (remarks rt outage)
  = 7 + flag (not_empty (streets (location outage)))
    + flag (Js.truthy (estimatedRestoration outage))
    + flag (Js.truthy (outageType outage))
    + flag (Js.truthy (crewStatus outage))
    + flag (Js.truthy (metadata_field feeder outage))
    + flag (Js.truthy (metadata_field aggregationType outage))
  /\ firstn 5 (remarks rt outage)
     = [ "Utility: " ++ Utility.name (utility outage);
         "Customers Affected: " ++ Number_toString rt (customersAffected outage);
         "Status: " ++ status outage;
         "Cause: " ++ cause outage;
         "Region: " ++ region outage ]
  /\ nth_error (remarks rt outage) (6 + flag (not_empty (streets (location outage))))
     = Some ("Outage Start: "
               ++ Date_toLocaleString rt (Date_parse rt (outageStart outage)) ++ " NZT").
Proof.
  unfold remarks, local_time.
  destruct (streets (location outage)) as [|street more];
    destruct (estimatedRestoration outage) as [[|c1 v1]|];
    destruct (outageType outage) as [[|c2 v2]|];
    destruct (crewStatus outage) as [[|c3 v3]|];
    destruct (metadata_field feeder outage) as [[|c4 v4]|];
    destruct (metadata_field aggregationType outage) as [[|c5 v5]|];
    repeat split.
Qed.

(** X11. The Areas entry reads [Unknown] when the areas joined by a comma
    and a space give the empty string (no area at all, or a single empty
    one), and is the joined areas otherwise.  The Streets entry is there
    exactly when there is a street, right after the Areas entry. *)
Theorem areas_and_streets_entries (rt : Runtime) (outage : PowerOutage) :
  (Js.join ", " (areas (location outage)) = "" ->
   nth_error (remarks rt outage) 5 = Some "Areas: Unknown")
  /\ (Js.join ", " (areas (location outage)) <> "" ->
      nth_error (remarks rt outage) 5
      = Some ("Areas: " ++ Js.join ", " (areas (location outage))))
  /\ (areas (location outage) = [] \/ areas (location outage) = [""] ->
      Js.join ", " (areas (location outage)) = "")
  /\ (streets (location outage) = [] -> no_line "Streets: " (remarks rt outage))
  /\ (streets (location outage) <> [] ->
      nth_error (remarks rt outage) 6
      = Some ("Streets: " ++ Js.join ", " (streets (location outage)))).
Proof.
  split; [|split; [|split; [|split]]].
  - intros Hjoin. unfold remarks. rewrite Hjoin. reflexivity.
  - intros Hjoin. unfold remarks.
    destruct (Js.join ", " (areas (location outage))); [congruence | reflexivity].
  - intros [-> | ->]; reflexivity.
  - intros Hnone. unfold remarks. rewrite Hnone. segments.
  - intros Hsome. unfold remarks.
    destruct (streets (location outage)); [congruence | reflexivity].
Qed.

(** X12. When the aggregation type is set and not empty, the last entry of
    the remarks is the Aggregated entry; it prints the outage count, and the
    word [undefined] when the metadata have no count. *)
Theorem aggregated_entry (rt : Runtime) (outage : PowerOutage) (m : OutageMetadata) :
  metadata outage = Some m ->
  Js.truthy (aggregationType m) = true ->
  (forall n, outageCount m = Some n ->
             last (remarks rt outage) ""
             = "Aggregated: " ++ Number_toString rt n ++ " outages")
  /\ (outageCount m = None ->
      last (remarks rt outage) "" = "Aggregated: undefined outages").
Proof.
  intros Hm Hagg. unfold remarks, metadata_field. rewrite Hm.
  destruct (aggregationType m) as [[|c agg]|]; try discriminate.
  unfold render_count.
  split; [intros n Hn | intros Hn]; rewrite Hn;
    destruct (streets (location outage)) as [|street more];
    destruct (estimatedRestoration outage) as [[|c1 v1]|];
    destruct (outageType outage) as [[|c2 v2]|];
    destruct (crewStatus outage) as [[|c3 v3]|];
    destruct (feeder m) as [[|c4 v4]|];
    reflexivity.
Qed.

Lemma aggregated_entry_witness :
  last (remarks Node.runtime Example.full_outage) "" = "Aggregated: 3 outages"
  /\ last (remarks Node.runtime Cases.uncounted_outage) ""
     = "Aggregated: undefined outages".
Proof.
  split.
  - destruct (aggregated_entry Node.runtime Example.full_outage
                {| feeder := Some "RIC-11";
                   lastUpdate := Some "2024-01-15T10:45:00Z";
                   aggregationType := Some "feeder";
                   outageCount := Some (Js.of_Z 3) |}) as (Hcount & _);
      [reflexivity | reflexivity |].
    apply (Hcount (Js.of_Z 3)). reflexivity.
  - destruct (aggregated_entry Node.runtime Cases.uncounted_outage
                {| feeder := None;
                   lastUpdate := None;
                   aggregationType := Some "feeder";
                   outageCount := None |}) as (_ & Hnone);
      [reflexivity | reflexivity |].
    apply Hnone. reflexivity.
Defined.

(** ** The query string *)

Lemma count_char_append (c : ascii) (a b : string) :
  count_char c (a ++ b) = count_char c a + count_char c b.
Proof.
  induction a as [|x a IH]; simpl; [reflexivity|]. rewrite IH. lia.
Qed.

Lemma all_chars_append (p : ascii -> bool) (a b : string) :
  all_chars p (a ++ b) = all_chars p a && all_chars p b.
Proof.
  induction a as [|x a IH]; simpl; [reflexivity|]. now rewrite IH, andb_assoc.
Qed.

(** A character that fails a test does not occur in a string that passes it. *)
Lemma count_char_excluded (p : ascii -> bool) (c : ascii) (s : string) :
  p c = false -> all_chars p s = true -> count_char c s = 0.
Proof.
  intros Hc. induction s as [|x s IH]; simpl; intros Hs; [reflexivity|].
  apply andb_true_iff in Hs as [Hx Hs].
  destruct (Ascii.eqb_spec x c) as [->|_]; [congruence|].
  simpl. now apply IH.
Qed.

Lemma encode_byte_written (c : ascii) :
  all_chars written_by_encode (URLSearchParams.encode_byte c) = true.
Proof.
  destruct c as [[] [] [] [] [] [] [] []]; reflexivity.
Qed.

(** The serializer writes alphanumerics, [*-._], [+] and [%] and nothing else. *)
Lemma encode_written (s : string) :
  all_chars written_by_encode (URLSearchParams.encode s) = true.
Proof.
  induction s as [|c s IH]; simpl; [reflexivity|].
  now rewrite all_chars_append, encode_byte_written, IH.
Qed.

Lemma encode_count (c : ascii) (s : string) :
  written_by_encode c = false -> count_char c (URLSearchParams.encode s) = 0.
Proof.
  intros Hc. apply (count_char_excluded written_by_encode); [assumption|].
  apply encode_written.
Qed.

(** In a serialized list of parameters, a character that the serializer
    does not write for a name or a value occurs only as a separator. *)
Lemma toString_count (c : ascii) (params : URLSearchParams.t) :
  written_by_encode c = false ->
  count_char c (URLSearchParams.toString params)
  = flag (Ascii.eqb "=" c) * List.length params
    + flag (Ascii.eqb "&" c) * Nat.pred (List.length params).
Proof.
  intros Hc. unfold URLSearchParams.toString.
  induction params as [|[name value] params IH]; [simpl; lia|].
  cbn [map fst snd].
  assert (count_char c (URLSearchParams.encode name ++ "=" ++ URLSearchParams.encode value)
          = flag (Ascii.eqb "=" c)) as Hpair.
  { rewrite !count_char_append, !encode_count by assumption. simpl. lia. }
  destruct params as [|next params].
  - cbn [map String.concat List.length Nat.pred]. rewrite Hpair. lia.
  - change (String.concat "&" (?x :: map ?f (next :: params)))
      with (x ++ "&" ++ String.concat "&" (map f (next :: params))) in *.
    cbn [map] in *.
    change (String.concat "&" (?x :: ?y :: ?l))
      with (x ++ "&" ++ String.concat "&" (y :: l)).
    rewrite count_char_append, Hpair, count_char_append, IH.
    cbn [count_char List.length Nat.pred]. lia.
Qed.

(** X13. The query string of the request is well formed whatever the filter
    values and the printed minimum contain: it has at most three
    parameters, exactly one [=] for each and one [&] between two of them,
    and no [?], [#] or space.  A filter value cannot add a parameter or cut
    the URL short; it is percent-encoded instead. *)
Theorem query_well_formed (rt : Runtime) (env : Env) :
  let params := request_params rt env (Number rt (Min_Customers env)) in
  let query := URLSearchParams.toString params in
  List.length params <= 3
  /\ count_char "=" query = List.length params
  /\ count_char "&" query = Nat.pred (List.length params)
  /\ count_char "?" query = 0
  /\ count_char "#" query = 0
  /\ count_char " " query = 0.
Proof.
  intros params query. split.
  - subst params. unfold request_params, URLSearchParams.append, URLSearchParams.empty.
    destruct (Js.ltb Js.zero (Number rt (Min_Customers env)));
      destruct (Utility_Filter env) as [[|c u]|];
      destruct (Outage_Type env) as [[|c' o]|]; cbn; lia.
  - subst query. rewrite !toString_count by reflexivity. cbn [flag Ascii.eqb Bool.eqb].
    repeat split; lia.
Qed.

(** A utility filter that contains [&] and [=], and a type with a space. *)
Lemma query_well_formed_witness :
  requested Node.runtime Cases.crafted_env
  = "https://utils.tak.nz/power-outages/outages?minCustomers=5&utility=ORION_NZ%26outageType%3Dplanned&outageType=un+planned"
  /\ count_char "&"
       (URLSearchParams.toString
          (request_params Node.runtime Cases.crafted_env
             (Number Node.runtime (Min_Customers Cases.crafted_env)))) = 2.
Proof.
  split; [reflexivity|].
  destruct (query_well_formed Node.runtime Cases.crafted_env) as (_ & _ & Hamp & _).
  exact Hamp.
Defined.

(** ** The minimum that is not sent *)

(** X14. The check of line 128 and the test of line 135 leave exactly one
    valid minimum out of the query: zero, of either sign.  Every other
    number that passes the check, positive infinity included, is greater
    than zero and is sent as [minCustomers]. *)
Theorem only_zero_is_not_sent (rt : Runtime) (env : Env) :
  let minCustomers := Number rt (Min_Customers env) in
  invalid_minimum minCustomers = false ->
  (~ In "minCustomers" (map fst (request_params rt env minCustomers))
   <-> exists sign, minCustomers = S754_zero sign).
Proof.
  intros minCustomers Hvalid.
  assert (Js.ltb Js.zero minCustomers = false <-> exists sign, minCustomers = S754_zero sign)
    as Hzero.
  { unfold invalid_minimum in Hvalid.
    destruct minCustomers as [sign|sign| |sign m e]; cbn in *.
    - split; [eauto | reflexivity].
    - destruct sign; cbn in *; [discriminate|].
      split; [discriminate | intros (sign & H); discriminate H].
    - discriminate.
    - destruct sign; cbn in *; [discriminate|].
      split; [discriminate | intros (sign & H); discriminate H]. }
  rewrite <- Hzero. unfold request_params, URLSearchParams.append, URLSearchParams.empty.
  destruct (Js.ltb Js.zero minCustomers);
    destruct (Utility_Filter env) as [[|c u]|];
    destruct (Outage_Type env) as [[|c' o]|];
    cbn [Js.if_truthy app map fst In]; split; intros H;
    try reflexivity; try discriminate;
    try (exfalso; apply H; now left);
    intros Hin;
    repeat (destruct Hin as [Hin|Hin]; try discriminate Hin); try contradiction.
Qed.

(** The minimum ["-0"] passes the check and is not sent. *)
Lemma only_zero_is_not_sent_witness :
  ~ In "minCustomers"
      (map fst (request_params Node.runtime (Example.env "-0" None None)
                  (Number Node.runtime "-0")))
  <-> exists sign, Number Node.runtime "-0" = S754_zero sign.
Proof.
  apply (only_zero_is_not_sent Node.runtime (Example.env "-0" None None)).
  vm_compute. reflexivity.
Defined.
